(** * Lead service line inventory portal: a shallow embedding in Rocq

    Embeds the OAuth service of [src/services/arcgis/auth.ts], the feature
    service client and the dashboard filtering of
    [src/components/DashboardsIntegrated.tsx], and the forward geocoder of
    the geocoding service ([src/unnamed/part_000]).

    Modelling conventions.
    - JavaScript strings are ASCII [string]s; [toLowerCase] lowers A-Z only.
    - JavaScript numbers are integers ([Z]); the code paths modelled only
      compare, add and multiply them.
    - Asynchronous calls ([fetch], [response.json()]) are replaced by an
      explicit outcome given as an argument; a thrown exception is the
      [JErr] branch of a small error result. *)

From Stdlib Require Import ZArith Bool List String Ascii Lia Permutation.
Import ListNotations.
Open Scope string_scope.

(* ------------------------------------------------------------------------- *)
(** ** JavaScript values and helpers *)

(** A JavaScript value read from an untyped ([any]) JSON object.  A
    missing property reads as [JUndef]. *)
Inductive jsval :=
| JUndef
| JNull
| JBool (b : bool)
| JNum (n : Z)
| JStr (s : string).

(** JavaScript truthiness: [false], [0], [""], [null] and [undefined] are
    falsy. *)
Definition truthy (v : jsval) : bool :=
  match v with
  | JUndef | JNull => false
  | JBool b => b
  | JNum n => negb (Z.eqb n 0)
  | JStr s => negb (String.eqb s "")
  end.

(** [a || b] on values. *)
Definition js_or (a b : jsval) : jsval := if truthy a then a else b.

(** Strict equality [a === b] on primitive values. *)
Definition js_strict_eq (a b : jsval) : bool :=
  match a, b with
  | JUndef, JUndef | JNull, JNull => true
  | JBool x, JBool y => Bool.eqb x y
  | JNum x, JNum y => Z.eqb x y
  | JStr x, JStr y => String.eqb x y
  | _, _ => false
  end.

(** A nullable string field ([string | null]) tested with [!x]. *)
Definition str_missing (o : option string) : bool :=
  match o with
  | None => true
  | Some s => String.eqb s ""
  end.

(** Result of a computation that may throw. *)
Inductive result (A : Type) :=
| JOk (a : A)
| JErr (msg : string).
Arguments JOk {A} a.
Arguments JErr {A} msg.

(* ------------------------------------------------------------------------- *)
(** ** OAuth service ([ArcGISAuthService], auth.ts) *)

Module Auth.

(** The private fields of [ArcGISAuthService]. *)
Record auth_state := mkAuth {
  accessToken : option string;
  refreshToken : option string;
  tokenExpiry : option Z;
  codeVerifier : option string
}.

(** [sessionStorage], restricted to the two keys the service uses. *)
Record session := mkSession {
  pkce_verifier : option string;
  auth_redirect : option string
}.

(** Field initialisers of the class: every field starts as [null]. *)
Definition init_state : auth_state := mkAuth None None None None.

(** [isAuthenticated()], at wall-clock time [now] ([Date.now()]). *)
Definition isAuthenticated (st : auth_state) (now : Z) : bool :=
  if str_missing (accessToken st) then false
  else match tokenExpiry st with
       | None => false
       | Some e => if Z.eqb e 0 then false else Z.ltb now e
       end.

(** [getAccessToken()]. *)
Definition getAccessToken (st : auth_state) (now : Z) : option string :=
  if isAuthenticated st now then accessToken st else None.

(** [logout()]: clears the fields and both session keys. *)
Definition logout (st : auth_state) (ss : session) : auth_state * session :=
  (mkAuth None None None None, mkSession None None).

(** The query-parameter step shared by [queryFeatures],
    [queryFeatureById], [queryFeaturesInExtent] and [getFeatureStats]:
    [const token = authService.getAccessToken(); if (token) params.append("token", token)]. *)
Definition attach_token (st : auth_state) (now : Z)
    (params : list (string * string)) : list (string * string) :=
  match getAccessToken st now with
  | Some t => if String.eqb t "" then params else params ++ [("token", t)]
  | None => params
  end.

(** The parsed JSON body of the token endpoint. *)
Record token_data := mkTokenData {
  access_token : option string;
  refresh_token : option string;
  expires_in : Z
}.

(** What [fetch(tokenUrl, ...)] followed by [response.json()] yields:
    a rejected fetch, or a response with its [ok] flag and a body that
    either parses ([Some]) or makes [response.json()] throw ([None]). *)
Inductive token_response :=
| TokNetErr
| TokResp (ok : bool) (body : option token_data).

(** [handleCallback(code)] at time [now], given the outcome of the token
    request.  Returns the thrown error or [JOk tt], with the new fields and
    session storage. *)
Definition handleCallback (st : auth_state) (ss : session) (code : string)
    (now : Z) (resp : token_response) : result unit * auth_state * session :=
  if str_missing (pkce_verifier ss) then
    (JErr "PKCE verifier not found", st, ss)
  else
    match resp with
    | TokNetErr => (JErr "fetch failed", st, ss)
    | TokResp false _ =>
        (JErr "Failed to exchange authorization code for token", st, ss)
    | TokResp true None => (JErr "invalid JSON", st, ss)
    | TokResp true (Some d) =>
        (JOk tt,
         mkAuth (access_token d) (refresh_token d)
                (Some (now + expires_in d * 1000)%Z) (codeVerifier st),
         mkSession None (auth_redirect ss))
    end.

End Auth.

(* ------------------------------------------------------------------------- *)
(** ** Login, refresh and callback flow (auth.ts) *)

Module AuthFlow.
Import Auth.

(** The character set of [generateRandomString]: the 66 unreserved URI
    characters. *)
Definition charset : string :=
  "ABCDEFGHIJKLMNOPQRSTUVWXYZabcdefghijklmnopqrstuvwxyz0123456789-._~".

(** [charset[v % charset.length]] rendered as a string; an index out of
    range would give [undefined], which [join("")] prints. *)
Definition charset_piece (v : nat) : string :=
  match String.get (Nat.modulo v (String.length charset)) charset with
  | Some c => String c EmptyString
  | None => "undefined"
  end.

(** [generateRandomString(length)], given the bytes
    [crypto.getRandomValues(new Uint8Array(length))]. *)
Definition generateRandomString (values : list nat) : string :=
  String.concat "" (map charset_piece values).

(** The base64 alphabet of [btoa]. *)
Definition b64_alphabet : string :=
  "ABCDEFGHIJKLMNOPQRSTUVWXYZabcdefghijklmnopqrstuvwxyz0123456789+/".

Definition b64_char (n : nat) : ascii :=
  match String.get n b64_alphabet with Some c => c | None => "="%char end.

(** [btoa(binary)] where [binary] holds one character per byte. *)
Fixpoint btoa (bytes : list nat) : string :=
  match bytes with
  | a :: b :: c :: rest =>
      String (b64_char (a / 4))
        (String (b64_char ((a mod 4) * 16 + b / 16))
          (String (b64_char ((b mod 16) * 4 + c / 64))
            (String (b64_char (c mod 64)) (btoa rest))))
  | [a; b] =>
      String (b64_char (a / 4))
        (String (b64_char ((a mod 4) * 16 + b / 16))
          (String (b64_char ((b mod 16) * 4)) "="))
  | [a] =>
      String (b64_char (a / 4)) (String (b64_char ((a mod 4) * 16)) "==")
  | [] => EmptyString
  end.

(** [s.replace(/x/g, y)] for a one-character pattern [x] and replacement
    [y] ([None]: the empty replacement). *)
Fixpoint replace_all (x : ascii) (y : option ascii) (s : string) : string :=
  match s with
  | EmptyString => EmptyString
  | String c rest =>
      if Ascii.eqb c x then
        match y with
        | Some d => String d (replace_all x y rest)
        | None => replace_all x y rest
        end
      else String c (replace_all x y rest)
  end.

(** [base64UrlEncode(buffer)]. *)
Definition base64UrlEncode (bytes : list nat) : string :=
  replace_all "="%char None
    (replace_all "/"%char (Some "_"%char)
      (replace_all "+"%char (Some "-"%char) (btoa bytes))).

(** [login()], given [arcgisConfig.oauth.clientId], the 128 random bytes
    of the verifier and [window.location.pathname].  The redirect to the
    authorization URL (which carries the SHA-256 challenge) is not
    modelled; the state changes are. *)
Definition login (clientId : string) (verifier_bytes : list nat) (pathname : string)
    (st : auth_state) (ss : session) : result unit * auth_state * session :=
  if String.eqb clientId "" then (JErr "OAuth client ID not configured", st, ss)
  else
    let verifier := generateRandomString verifier_bytes in
    (JOk tt,
     mkAuth (accessToken st) (refreshToken st) (tokenExpiry st) (Some verifier),
     mkSession (Some verifier) (Some pathname)).

(** [refreshAccessToken()] at time [now], given the token response. *)
Definition refreshAccessToken (st : auth_state) (ss : session) (now : Z)
    (resp : token_response) : result unit * auth_state * session :=
  if str_missing (refreshToken st) then (JErr "No refresh token available", st, ss)
  else
    match resp with
    | TokNetErr => (JErr "fetch failed", st, ss)
    | TokResp false _ =>
        let '(st', ss') := logout st ss in
        (JErr "Refresh token expired, please log in again", st', ss')
    | TokResp true None => (JErr "invalid JSON", st, ss)
    | TokResp true (Some d) =>
        (JOk tt,
         mkAuth (access_token d) (refreshToken st)
                (Some (now + expires_in d * 1000)%Z) (codeVerifier st),
         ss)
    end.

(** [checkForCallback()], given the [code] query parameter of the URL.
    Returns the result, the fields, the session storage and the path
    passed to [history.replaceState] ([None]: not called). *)
Definition checkForCallback (urlCode : option string) (st : auth_state) (ss : session)
    (now : Z) (resp : token_response)
    : result bool * auth_state * session * option string :=
  match urlCode with
  | Some code =>
      if String.eqb code "" then (JOk false, st, ss, None)
      else
        match handleCallback st ss code now resp with
        | (JErr m, st', ss') => (JErr m, st', ss', None)
        | (JOk _, st', ss') =>
            let redirectPath :=
              match auth_redirect ss' with
              | Some p => if String.eqb p "" then "/" else p
              | None => "/"
              end in
            (JOk true, st', mkSession (pkce_verifier ss') None, Some redirectPath)
        end
  | None => (JOk false, st, ss, None)
  end.

End AuthFlow.

(* ------------------------------------------------------------------------- *)
(** ** WHERE clause builder ([buildWhereClause], featureService) *)

Module Where.

(** The material selection of the dashboard
    ([useState<"all" | "lead" | "unknown">], DashboardsIntegrated.tsx). *)
Inductive material_filter := MatAll | MatLead | MatUnknown.

(** [FilterOptions] as declared in [services/types.ts]
    (src/unnamed/part_000): the material selection, the two visibility
    toggles and [status?: string[]]. *)
Record FilterOptions := mkFilter {
  material : material_filter;
  showCustomer : bool;
  showSupplier : bool;
  status : option (list string)
}.

(** [buildWhereClause(filters)]. *)
Definition buildWhereClause (filters : FilterOptions) : string :=
  let c1 :=
    match material filters with
    | MatLead => ["(CustomerMaterial = 'Lead' OR SupplierMaterial = 'Lead')"]
    | MatUnknown => ["(CustomerMaterial = 'Unknown' OR SupplierMaterial = 'Unknown')"]
    | MatAll => []
    end in
  let c2 :=
    match status filters with
    | Some l =>
        if Nat.ltb 0 (List.length l) then
          let statusList := String.concat "," (map (fun s => "'" ++ s ++ "'") l) in
          ["Status IN (" ++ statusList ++ ")"]
        else []
    | None => []
    end in
  let conditions := (c1 ++ c2)%list in
  if Nat.ltb 0 (List.length conditions) then String.concat " AND " conditions
  else "1=1".

(** The single-quote character that delimits SQL string literals. *)
Definition squote : ascii := "'"%char.

(** Scanner of the string literals of a predicate: the state is [None]
    outside a literal and [Some acc] inside one, [acc] being the text read
    so far.  Returns the completed literals and the final state. *)
Fixpoint scan_literals (st : option string) (s : string)
    : list string * option string :=
  match s with
  | EmptyString => ([], st)
  | String c rest =>
      if Ascii.eqb c squote then
        match st with
        | None => scan_literals (Some "") rest
        | Some acc =>
            let '(out, st') := scan_literals None rest in (acc :: out, st')
        end
      else
        match st with
        | None => scan_literals None rest
        | Some acc => scan_literals (Some (acc ++ String c "")) rest
        end
  end.

(** The quoted literals of a predicate string. *)
Definition quoted_literals (s : string) : list string := fst (scan_literals None s).

(** [true] when the string holds no single quote. *)
Fixpoint no_squote (s : string) : bool :=
  match s with
  | EmptyString => true
  | String c rest => negb (Ascii.eqb c squote) && no_squote rest
  end.

(** The fragment of the remote (SQL) WHERE dialect the builder emits. *)
Inductive pred :=
| PTrue                                        (* 1=1 *)
| PEq (field : string) (v : string)            (* field = 'v' *)
| POr (a b : pred)                             (* (a OR b) *)
| PAnd (a b : pred)                            (* a AND b *)
| PIn (field : string) (vs : list string).     (* field IN ('v1','v2') *)

Fixpoint render (p : pred) : string :=
  match p with
  | PTrue => "1=1"
  | PEq f v => f ++ " = '" ++ v ++ "'"
  | POr a b => "(" ++ render a ++ " OR " ++ render b ++ ")"
  | PAnd a b => render a ++ " AND " ++ render b
  | PIn f vs => f ++ " IN (" ++ String.concat "," (map (fun v => "'" ++ v ++ "'") vs) ++ ")"
  end.

(** A dataset row, as the server sees it: a field may be NULL. *)
Definition row := string -> option string.

Fixpoint eval (p : pred) (r : row) : bool :=
  match p with
  | PTrue => true
  | PEq f v => match r f with Some x => String.eqb x v | None => false end
  | POr a b => eval a r || eval b r
  | PAnd a b => eval a r && eval b r
  | PIn f vs => match r f with
                | Some x => existsb (String.eqb x) vs
                | None => false
                end
  end.

End Where.

(* ------------------------------------------------------------------------- *)
(** ** Case mapping and substring search on strings *)

(** [toLowerCase] on one ASCII character. *)
Definition lower_ascii (c : ascii) : ascii :=
  let n := nat_of_ascii c in
  if (Nat.leb 65 n && Nat.leb n 90)%bool then ascii_of_nat (n + 32) else c.

(** [s.toLowerCase()]. *)
Fixpoint to_lower (s : string) : string :=
  match s with
  | EmptyString => EmptyString
  | String c rest => String (lower_ascii c) (to_lower rest)
  end.

(** [s.includes(t)]: [t] occurs in [s] at some position. *)
Fixpoint includes (s t : string) : bool :=
  String.prefix t s ||
  match s with
  | EmptyString => false
  | String _ rest => includes rest t
  end.

(** [[a, b, ...].includes(v)] on a list of strings. *)
Definition list_includes (l : list string) (v : string) : bool :=
  existsb (String.eqb v) l.

(* ------------------------------------------------------------------------- *)
(** ** Dataset features and locations (DashboardsIntegrated.tsx) *)

Module Feature.

(** The attributes of a raw feature ([feature.attributes], typed [any]);
    a field the service did not return reads as [JUndef]. *)
Record attrs := mkAttrs {
  OBJECTID : jsval;
  Address : jsval;
  CustomerMaterial : jsval;
  SupplierMaterial : jsval;
  LetterSent : jsval;
  YearBuilt : jsval;
  Status : jsval
}.

(** [feature.geometry]: a point with its [x] and [y] properties. *)
Record geom := mkGeom { gx : jsval; gy : jsval }.

Record feature := mkFeature {
  attributes : attrs;
  geometry : option geom
}.

(** The [Location] object literal built by [featureToLocation]. *)
Record Location := mkLocation {
  id : jsval;
  address : jsval;
  customerMaterial : jsval;
  supplierMaterial : jsval;
  letterSent : bool;
  buildYear : jsval;
  status : jsval;
  lat : jsval;
  lng : jsval
}.

(** [geometry?.y] and [geometry?.x]. *)
Definition geom_y (g : option geom) : jsval :=
  match g with Some g => gy g | None => JUndef end.
Definition geom_x (g : option geom) : jsval :=
  match g with Some g => gx g | None => JUndef end.

(** [featureToLocation(feature)]. *)
Definition featureToLocation (feature : feature) : Location :=
  let a := attributes feature in
  let g := geometry feature in
  {| id := OBJECTID a;
     address := js_or (Address a) (JStr "Unknown Address");
     customerMaterial := js_or (CustomerMaterial a) (JStr "Unknown");
     supplierMaterial := js_or (SupplierMaterial a) (JStr "Unknown");
     letterSent := js_strict_eq (LetterSent a) (JNum 1) ||
                   js_strict_eq (LetterSent a) (JBool true);
     buildYear := js_or (YearBuilt a) (JNum 0);
     status := js_or (Status a) (JStr "UNKNOWN");
     lat := js_or (geom_y g) (JNum 0);
     lng := js_or (geom_x g) (JNum 0) |}.

End Feature.

(* ------------------------------------------------------------------------- *)
(** ** Dashboard helpers (DashboardsIntegrated.tsx) *)

Module Dashboard.
Import Feature.

(** [MATERIAL_LABEL(code)]; [None] is [null] or [undefined]. *)
Definition MATERIAL_LABEL (code : option string) : string :=
  match code with
  | None => "Not determined"
  | Some c =>
      let v := to_lower c in
      if list_includes ["lead"; "pb"; "l"] v then "Lead"
      else if list_includes ["copper"; "cu"] v then "Copper"
      else if list_includes ["galv"; "galvanized"] v then "Galvanized Steel"
      else if list_includes ["unknown"; "unk"; "u"; ""] v then "Not determined"
      else c
  end.

(** [filteredLocations]: [locations.filter(...)] with the search term.
    [loc.address.toLowerCase()] throws on a non-string address. *)
Fixpoint filteredLocations (searchTerm : string) (locations : list Location)
    : result (list Location) :=
  match locations with
  | [] => JOk []
  | loc :: rest =>
      let keep :=
        if String.eqb searchTerm "" then JOk true
        else match address loc with
             | JStr a => JOk (includes (to_lower a) (to_lower searchTerm))
             | _ => JErr "loc.address.toLowerCase is not a function"
             end in
      match keep with
      | JErr m => JErr m
      | JOk b =>
          match filteredLocations searchTerm rest with
          | JErr m => JErr m
          | JOk r => JOk (if b then loc :: r else r)
          end
      end
  end.

End Dashboard.

(* ------------------------------------------------------------------------- *)
(** ** Feature service client (featureService) *)

Module FeatureService.
Import Feature.

(** The parsed body of a query response. *)
Inductive body :=
| BodyUnparsable                    (* [response.json()] throws *)
| BodyError (msg : string)          (* [data.error] is set *)
| BodyFeatures (fs : list feature)  (* [data.features] *)
| BodyNoFeatures.                   (* neither: [data.features] is undefined *)

(** The outcome of [fetch(url)]: rejected, or a response with its [ok]
    flag and body.  The request URL, whose token part is [Auth.attach_token],
    does not influence the outcome here: it is given. *)
Inductive response :=
| NetErr
| Resp (ok : bool) (b : body).

(** [queryFeatures(filters)]: every failure is rethrown.  [statusText] is
    the [response.statusText] of the response, read on a non-2xx one. *)
Definition queryFeatures (resp : response) (statusText : string) : result (list Location) :=
  match resp with
  | NetErr => JErr "fetch failed"
  | Resp false _ => JErr ("Feature service query failed: " ++ statusText)
  | Resp true BodyUnparsable => JErr "invalid JSON"
  | Resp true (BodyError m) => JErr ("ArcGIS Error: " ++ m)
  | Resp true (BodyFeatures fs) => JOk (map featureToLocation fs)
  | Resp true BodyNoFeatures => JErr "data.features is undefined"
  end.

(** [queryFeatureById(objectId)]: every failure is caught, giving [null]. *)
Definition queryFeatureById (resp : response) : option Location :=
  match resp with
  | NetErr => None
  | Resp _ BodyUnparsable => None
  | Resp _ (BodyError _) => None
  | Resp _ (BodyFeatures (f :: _)) => Some (featureToLocation f)
  | Resp _ (BodyFeatures []) => None
  | Resp _ BodyNoFeatures => None
  end.

(** [queryFeaturesInExtent(extent, filters)]: no [response.ok] test;
    failures are rethrown. *)
Definition queryFeaturesInExtent (resp : response) : result (list Location) :=
  match resp with
  | NetErr => JErr "fetch failed"
  | Resp _ BodyUnparsable => JErr "invalid JSON"
  | Resp _ (BodyError m) => JErr ("ArcGIS Error: " ++ m)
  | Resp _ (BodyFeatures fs) => JOk (map featureToLocation fs)
  | Resp _ BodyNoFeatures => JErr "data.features is undefined"
  end.

Record stats := mkStats {
  total : nat; lead : nat; unknown : nat; verified : nat; assumed : nat
}.

Definition zero_stats : stats := mkStats 0 0 0 0 0.

(** The counts of [getFeatureStats] over a fetched feature array. *)
Definition count_features (features : list feature) : stats :=
  {| total := List.length features;
     lead := List.length (filter (fun f =>
               js_strict_eq (CustomerMaterial (attributes f)) (JStr "Lead") ||
               js_strict_eq (SupplierMaterial (attributes f)) (JStr "Lead")) features);
     unknown := List.length (filter (fun f =>
               js_strict_eq (CustomerMaterial (attributes f)) (JStr "Unknown") ||
               js_strict_eq (SupplierMaterial (attributes f)) (JStr "Unknown")) features);
     verified := List.length (filter (fun f =>
               js_strict_eq (Status (attributes f)) (JStr "VERIFIED")) features);
     assumed := List.length (filter (fun f =>
               js_strict_eq (Status (attributes f)) (JStr "ASSUMED")) features) |}.

(** [getFeatureStats()]: failures are caught, giving all-zero counts. *)
Definition getFeatureStats (resp : response) : stats :=
  match resp with
  | Resp _ (BodyFeatures fs) => count_features fs
  | _ => zero_stats
  end.

(** Field-wise sum of two count records. *)
Definition add_stats (a b : stats) : stats :=
  mkStats (total a + total b) (lead a + lead b) (unknown a + unknown b)
          (verified a + verified b) (assumed a + assumed b).

(** A feature as [getFeatureStats] receives it: only the three requested
    fields ([outFields]) and no geometry. *)
Definition stat_feature (cm sm st : string) : feature :=
  mkFeature (mkAttrs JUndef JUndef (JStr cm) (JStr sm) JUndef JUndef (JStr st)) None.

(** A fixture with 2 lead, 3 unknown, 5 verified and 2 assumed records. *)
Definition stats_fixture : list feature :=
  [stat_feature "Lead" "Copper" "VERIFIED";
   stat_feature "Copper" "Lead" "VERIFIED";
   stat_feature "Unknown" "Copper" "VERIFIED";
   stat_feature "Copper" "Unknown" "VERIFIED";
   stat_feature "Unknown" "Unknown" "VERIFIED";
   stat_feature "Copper" "Copper" "ASSUMED";
   stat_feature "Copper" "Copper" "ASSUMED"].

End FeatureService.

(* ------------------------------------------------------------------------- *)
(** ** Forward geocoding ([geocodeAddress], geocoding service) *)

Module Geocode.

(** A candidate of [findAddressCandidates]; [location] is [None] when the
    candidate has no [location] object. *)
Record candidate := mkCandidate {
  c_address : jsval;
  c_location : option (jsval * jsval);
  c_score : jsval;
  c_attributes : jsval
}.

Record GeocodeResult := mkGeocodeResult {
  g_address : jsval;
  g_location : jsval * jsval;
  g_score : jsval;
  g_attributes : jsval
}.

Inductive geo_body :=
| GUnparsable                      (* [response.json()] throws *)
| GError (msg : string)            (* [data.error] is set *)
| GCandidates (cs : list candidate)
| GNoCandidates.                   (* [data.candidates] is undefined *)

Inductive geo_response :=
| GNetErr
| GResp (ok : bool) (b : geo_body).

(** [data.candidates.map(...)]: [candidate.location.x] throws when a
    candidate has no location. *)
Fixpoint map_candidates (cs : list candidate) : option (list GeocodeResult) :=
  match cs with
  | [] => Some []
  | c :: rest =>
      match c_location c, map_candidates rest with
      | Some xy, Some r =>
          Some (mkGeocodeResult (c_address c) xy (c_score c) (c_attributes c) :: r)
      | _, _ => None
      end
  end.

(** [arcgisConfig.map.center], rendered as [`${x},${y}`]. *)
Definition default_center : string := "-87.8,42.1".

(** [geocodeAddress(searchText, center)]: returns the query parameters of
    the request issued ([None]: no request) and the result.  A given
    [center] is passed as the decimal renderings of its coordinates. *)
Definition geocodeAddress (searchText : string) (center : option (string * string))
    (resp : geo_response) : option (list (string * string)) * list GeocodeResult :=
  if String.eqb searchText "" || Nat.ltb (String.length searchText) 3 then (None, [])
  else
    let location :=
      match center with
      | Some (x, y) => x ++ "," ++ y
      | None => default_center
      end in
    let params := [("SingleLine", searchText); ("f", "json"); ("outFields", "*");
                   ("maxLocations", "10"); ("outSR", "4326"); ("location", location)] in
    (Some params,
     match resp with
     | GNetErr => []
     | GResp false _ => []
     | GResp true GUnparsable => []
     | GResp true (GError _) => []
     | GResp true GNoCandidates => []
     | GResp true (GCandidates cs) =>
         match map_candidates cs with Some r => r | None => [] end
     end).

End Geocode.

(* ------------------------------------------------------------------------- *)
(** ** Material colours and the lead banner (DashboardsIntegrated.tsx) *)

Module DashboardView.

(** [getMaterialColor(material)]. *)
Definition getMaterialColor (material : string) : string :=
  let m := to_lower material in
  if list_includes ["lead"; "pb"; "l"] m then "text-amber-700 bg-amber-50 border-amber-200"
  else if list_includes ["copper"; "cu"] m then "text-emerald-700 bg-emerald-50 border-emerald-200"
  else if list_includes ["galv"; "galvanized"] m then "text-slate-700 bg-slate-50 border-slate-200"
  else "text-gray-600 bg-gray-50 border-gray-200".

(** The condition of the "Lead Service Line Detected" banner of the side
    panel, over the selected location's two material strings. *)
Definition showLeadBanner (customerMaterial supplierMaterial : string) : bool :=
  String.eqb (to_lower customerMaterial) "lead" ||
  String.eqb (to_lower supplierMaterial) "lead".

End DashboardView.

(* ------------------------------------------------------------------------- *)
(** ** [useFeatureLayer]: the state after [fetchData] settles *)

Module FeatureLayer.
Import Feature FeatureService.

Record layer_state := mkLayer {
  locations : list Location;
  layer_stats : stats;
  loading : bool;
  error : option string
}.

(** [fetchData()]: [Promise.all([queryFeatures(filters), getFeatureStats()])]
    given the two responses (and the status text of the first); the state
    once the [finally] block ran. *)
Definition fetchData (st : layer_state) (rq : response) (statusText : string)
    (rs : response) : layer_state :=
  match queryFeatures rq statusText with
  | JOk locationsData => mkLayer locationsData (getFeatureStats rs) false None
  | JErr m => mkLayer (locations st) (layer_stats st) false (Some m)
  end.

(** The initial state of the hook. *)
Definition init_layer : layer_state := mkLayer [] zero_stats true None.

End FeatureLayer.

(* ------------------------------------------------------------------------- *)
(** ** Suggestions, magic-key lookup and reverse geocoding *)

Module GeocodeMore.
Import Geocode.

(** A suggestion object, passed through as the service sends it. *)
Record suggestion := mkSuggestion { s_text : jsval; s_magicKey : jsval }.

Inductive sugg_body :=
| SUnparsable
| SError
| SBody (suggestions : option (list suggestion)).  (* [data.suggestions] *)

Inductive sugg_response :=
| SNetErr
| SResp (ok : bool) (b : sugg_body).

(** [getSuggestions(searchText, center)]: the query parameters of the
    request issued ([None]: none) and the result. *)
Definition getSuggestions (searchText : string) (center : option (string * string))
    (resp : sugg_response) : option (list (string * string)) * list suggestion :=
  if String.eqb searchText "" || Nat.ltb (String.length searchText) 2 then (None, [])
  else
    let location :=
      match center with
      | Some (x, y) => x ++ "," ++ y
      | None => default_center
      end in
    (Some [("text", searchText); ("f", "json"); ("maxSuggestions", "8");
           ("location", location)],
     match resp with
     | SNetErr => []
     | SResp _ SUnparsable => []
     | SResp _ SError => []
     | SResp _ (SBody None) => []
     | SResp _ (SBody (Some l)) => l
     end).






End GeocodeMore.

(* ------------------------------------------------------------------------- *)
(** ** Configuration check (arcgis.config.ts) *)

Module Config.

(** [validateConfig()], given [featureServiceUrl], [oauth.clientId] and
    [oauth.redirectUri]. *)
Definition validateConfig (featureServiceUrl clientId redirectUri : string)
    : bool * list string :=
  let e1 := if String.eqb featureServiceUrl ""
            then ["VITE_ARCGIS_FEATURE_SERVICE_URL is required"] else [] in
  let e2 := if negb (String.eqb clientId "") && String.eqb redirectUri ""
            then ["VITE_ARCGIS_REDIRECT_URI is required when using OAuth"] else [] in
  let errors := (e1 ++ e2)%list in
  (Nat.eqb (List.length errors) 0, errors).

End Config.

(* ------------------------------------------------------------------------- *)
(** ** [useArcGISAuth]: the check run on mount *)

Module AuthHook.
Import Auth AuthFlow.

Record auth_hook := mkAuthHook {
  h_isAuthenticated : bool;
  h_loading : bool;
  h_error : option string
}.

(** The initial state of the hook. *)
Definition init_auth_hook : auth_hook := mkAuthHook false true None.

(** [checkAuth()] given the [code] parameter, the callback's token
    response, the time [now] of the exchange and the time [t] of the
    following [isAuthenticated()]: the hook state once the [finally]
    block ran, with the service fields, storage and rewritten path. *)
Definition checkAuth (h : auth_hook) (urlCode : option string) (st : auth_state)
    (ss : session) (now t : Z) (resp : token_response)
    : auth_hook * auth_state * session * option string :=
  match checkForCallback urlCode st ss now resp with
  | (JOk _, st', ss', path) =>
      (mkAuthHook (isAuthenticated st' t) false (h_error h), st', ss', path)
  | (JErr m, st', ss', path) =>
      (mkAuthHook (h_isAuthenticated h) false (Some m), st', ss', path)
  end.

End AuthHook.

(* ------------------------------------------------------------------------- *)
(** ** [useGeocoder]: [search] and [getSuggestions] *)

Module GeocoderHook.
Import Geocode GeocodeMore.

Record geo_hook := mkGeoHook {
  results : list GeocodeResult;
  suggestions : list suggestion;
  g_loading : bool;
  g_error : option string
}.

(** [search(text, center)] given the geocoding response: the state once
    it settled.  [geocodeAddress] catches its own failures. *)
Definition search (h : geo_hook) (text : string) (center : option (string * string))
    (resp : geo_response) : geo_hook :=
  if String.eqb text "" || Nat.ltb (String.length text) 3 then
    mkGeoHook [] (suggestions h) (g_loading h) (g_error h)
  else
    mkGeoHook (snd (geocodeAddress text center resp)) (suggestions h) false None.

(** [fetchSuggestions(text, center)] given the suggestion response. *)
Definition fetchSuggestions (h : geo_hook) (text : string)
    (center : option (string * string)) (resp : sugg_response) : geo_hook :=
  if String.eqb text "" || Nat.ltb (String.length text) 2 then
    mkGeoHook (results h) [] (g_loading h) (g_error h)
  else
    mkGeoHook (results h) (snd (getSuggestions text center resp)) (g_loading h) (g_error h).

End GeocoderHook.

(* ========================================================================= *)
(** * Properties *)

Module AuthProofs.
Import Auth.

Lemma isAuthenticated_true_iff (st : auth_state) (now : Z) :
  (0 <= now)%Z ->
  isAuthenticated st now = true <->
  exists t e, accessToken st = Some t /\ t <> "" /\
              tokenExpiry st = Some e /\ (now < e)%Z.
Proof.
  intros Hnow; unfold isAuthenticated, str_missing.
  destruct (accessToken st) as [t|] eqn:Ht.
  - destruct (String.eqb_spec t "") as [->|Hne].
    + split; [discriminate|]. intros (t' & e & Ht' & Hne' & _).
      inversion Ht'; subst; contradiction.
    + destruct (tokenExpiry st) as [e|] eqn:He.
      * destruct (Z.eqb_spec e 0) as [->|He0].
        -- split; [discriminate|]. intros (t' & e' & _ & _ & He' & Hlt).
           inversion He'; subst; lia.
        -- rewrite Z.ltb_lt. split.
           ++ intros Hlt; exists t, e; repeat split; auto.
           ++ intros (t' & e' & _ & _ & He' & Hlt); inversion He'; subst; exact Hlt.
      * split; [discriminate|]. intros (t' & e' & _ & _ & He' & _); discriminate.
  - split; [discriminate|]. intros (t' & _ & Ht' & _); discriminate.
Qed.

Lemma getAccessToken_some_iff (st : auth_state) (now : Z) (t : string) :
  getAccessToken st now = Some t <->
  isAuthenticated st now = true /\ accessToken st = Some t.
Proof.
  unfold getAccessToken; destruct (isAuthenticated st now); split;
    intuition congruence.
Qed.

(** The token attached to a request is a fresh, unexpired one. *)
Lemma attach_token_fresh (st : auth_state) (now : Z) params k v :
  (0 <= now)%Z ->
  In (k, v) (attach_token st now params) -> ~ In (k, v) params ->
  k = "token" /\ accessToken st = Some v /\
  exists e, tokenExpiry st = Some e /\ (now < e)%Z.
Proof.
  intros Hnow Hin Hnot; unfold attach_token in Hin.
  destruct (getAccessToken st now) as [t|] eqn:Hg; [|contradiction].
  destruct (String.eqb t ""); [contradiction|].
  apply in_app_or in Hin as [Hin|[Heq|[]]]; [contradiction|].
  inversion Heq; subst k v.
  apply getAccessToken_some_iff in Hg as [Ha Ht].
  apply isAuthenticated_true_iff in Ha as (t' & e & Ht' & _ & He & Hlt); auto.
  split; [reflexivity|]. split; [exact Ht|]. exists e; auto.
Qed.

End AuthProofs.

(* ------------------------------------------------------------------------- *)
(** ** C1: credential validity *)

Module C1.
Import Auth AuthProofs.

(** Claim C1, as stated: [isAuthenticated()] is true iff a token and an
    expiry are present and the expiry is in the future.  It fails for a
    present but empty token string: [!this.accessToken] treats [""] as
    missing, so an empty token with a future expiry is not authenticated. *)
Lemma C1_empty_token_counterexample :
  ~ (isAuthenticated (mkAuth (Some "") None (Some 1000%Z) None) 0 = true <->
     exists t e, accessToken (mkAuth (Some "") None (Some 1000%Z) None) = Some t /\
                 tokenExpiry (mkAuth (Some "") None (Some 1000%Z) None) = Some e /\
                 (0 < e)%Z).
Proof.
  intros [_ H]. discriminate H. exists "", 1000%Z. repeat split.
Qed.

(** Claim C1 (amended).  At any time [now >= 0] ([Date.now()]):
    [isAuthenticated()] holds iff the access token is a non-empty string
    and the expiry is present and strictly later than [now];
    [getAccessToken()] returns the token exactly when authenticated and
    [null] otherwise; a fresh service and a logged-out one are not
    authenticated; a past expiry makes the service unauthenticated even
    with a token; and the token any query attaches is unexpired. *)
Theorem C1_credential_validity (st : auth_state) (ss : session) (now : Z) :
  (0 <= now)%Z ->
  (isAuthenticated st now = true <->
     exists t e, accessToken st = Some t /\ t <> "" /\
                 tokenExpiry st = Some e /\ (now < e)%Z) /\
  (forall t, getAccessToken st now = Some t <->
             isAuthenticated st now = true /\ accessToken st = Some t) /\
  (isAuthenticated st now = false -> getAccessToken st now = None) /\
  isAuthenticated init_state now = false /\
  isAuthenticated (fst (logout st ss)) now = false /\
  (forall e, tokenExpiry st = Some e -> (e <= now)%Z ->
             isAuthenticated st now = false) /\
  (forall params k v, In (k, v) (attach_token st now params) ->
     ~ In (k, v) params ->
     accessToken st = Some v /\ exists e, tokenExpiry st = Some e /\ (now < e)%Z).
Proof.
  intros Hnow. split; [now apply isAuthenticated_true_iff|].
  split; [intro t; apply getAccessToken_some_iff|].
  split; [unfold getAccessToken; intros ->; reflexivity|].
  split; [reflexivity|]. split; [reflexivity|]. split.
  - intros e He Hle. destruct (isAuthenticated st now) eqn:Ha; [|reflexivity].
    apply isAuthenticated_true_iff in Ha as (t & e' & _ & _ & He' & Hlt); auto.
    rewrite He in He'; inversion He'; subst; lia.
  - intros params k v Hin Hnot.
    destruct (attach_token_fresh st now params k v Hnow Hin Hnot) as (_ & Ha & He).
    auto.
Qed.

Lemma C1_credential_validity_witness :
  (0 <= 5)%Z /\
  isAuthenticated (mkAuth (Some "tok") None (Some 10%Z) None) 5 = true.
Proof.
  split; [lia|].
  destruct (C1_credential_validity (mkAuth (Some "tok") None (Some 10%Z) None)
              (mkSession None None) 5 ltac:(lia)) as [H _].
  apply H. exists "tok", 10%Z. split; [reflexivity|]. split; [discriminate|].
  split; [reflexivity|lia].
Defined.

End C1.

(* ------------------------------------------------------------------------- *)
(** ** C2: the token exchange of [handleCallback] *)

Module C2.
Import Auth.

(** Claim C2, as stated: after a failed (non-2xx) exchange the stored
    verifier is cleared.  It is not: the [throw] on [!response.ok] leaves
    [sessionStorage] untouched, [removeItem("pkce_verifier")] runs only on
    the success path. *)
Lemma C2_verifier_kept_counterexample :
  pkce_verifier
    (snd (handleCallback init_state (mkSession (Some "v") None) "code" 0
            (TokResp false None))) = Some "v".
Proof. reflexivity. Qed.

(** Claim C2 (amended): a non-2xx token response makes [handleCallback]
    throw and leaves the credential fields and the stored verifier
    untouched; more generally every failure leaves fields and storage
    unchanged, and the stored verifier is removed exactly on success. *)
Theorem C2_handleCallback_failure (st : auth_state) (ss : session)
    (code : string) (now : Z) (resp : token_response) :
  let '(r, st', ss') := handleCallback st ss code now resp in
  ((exists b, resp = TokResp false b) -> exists m, r = JErr m) /\
  ((exists m, r = JErr m) -> st' = st /\ ss' = ss) /\
  (r = JOk tt -> pkce_verifier ss' = None /\ auth_redirect ss' = auth_redirect ss).
Proof.
  unfold handleCallback.
  destruct (str_missing (pkce_verifier ss));
    [|destruct resp as [|[|] [d|]]]; simpl;
    repeat split; intros; try reflexivity; try discriminate;
    try (eexists; reflexivity);
    repeat match goal with H : exists _, _ |- _ => destruct H end;
    discriminate.
Qed.

End C2.

(* ------------------------------------------------------------------------- *)
(** ** Lemmas on the literal scanner and the rendered predicates *)

Module WhereProofs.
Import Where.

Lemma str_app_assoc (a b c : string) : (a ++ b) ++ c = a ++ (b ++ c).
Proof. induction a; simpl; congruence. Qed.

Lemma str_app_nil_r (a : string) : a ++ "" = a.
Proof. induction a; simpl; congruence. Qed.

Lemma str_app_nil_l (a : string) : "" ++ a = a.
Proof. reflexivity. Qed.

Lemma scan_literals_app (s1 s2 : string) (st : option string) :
  scan_literals st (s1 ++ s2) =
  let '(o1, st1) := scan_literals st s1 in
  let '(o2, st2) := scan_literals st1 s2 in (o1 ++ o2, st2)%list.
Proof.
  revert st; induction s1 as [|c s1 IH]; intros st; simpl.
  - destruct (scan_literals st s2); reflexivity.
  - destruct (Ascii.eqb c squote), st as [acc|]; rewrite ?IH;
      try reflexivity.
    destruct (scan_literals None s1) as [o1 st1].
    destruct (scan_literals st1 s2) as [o2 st2]. reflexivity.
Qed.

Lemma scan_no_squote_outside (t : string) :
  no_squote t = true -> scan_literals None t = ([], None).
Proof.
  induction t as [|c t IH]; simpl; [reflexivity|].
  intros H; apply andb_prop in H as [Hc Ht].
  destruct (Ascii.eqb c squote); [discriminate|]. auto.
Qed.

Lemma scan_no_squote_inside (t acc : string) :
  no_squote t = true -> scan_literals (Some acc) t = ([], Some (acc ++ t)).
Proof.
  revert acc; induction t as [|c t IH]; intros acc; simpl.
  - rewrite str_app_nil_r; reflexivity.
  - intros H; apply andb_prop in H as [Hc Ht].
    destruct (Ascii.eqb c squote); [discriminate|].
    rewrite IH by exact Ht. rewrite str_app_assoc. reflexivity.
Qed.

(** A quoted value followed by more text. *)
Lemma scan_quoted (v rest : string) :
  no_squote v = true ->
  scan_literals None (("'" ++ v ++ "'") ++ rest) =
  let '(o, st) := scan_literals None rest in (v :: o, st).
Proof.
  intros Hv. simpl.
  rewrite (scan_literals_app (v ++ "'") rest), (scan_literals_app v "'").
  rewrite scan_no_squote_inside by exact Hv. simpl.
  destruct (scan_literals None rest); reflexivity.
Qed.

Lemma scan_quoted_list (l : list string) :
  forallb no_squote l = true ->
  scan_literals None (String.concat "," (map (fun v => "'" ++ v ++ "'") l)) =
  (l, None).
Proof.
  induction l as [|v l IH]; [reflexivity|].
  simpl forallb; intros H; apply andb_prop in H as [Hv Hl].
  destruct l as [|w l].
  - change (String.concat "," (map (fun v0 => "'" ++ v0 ++ "'") [v]))
      with ("'" ++ v ++ "'").
    rewrite <- (str_app_nil_r ("'" ++ v ++ "'")), scan_quoted by exact Hv.
    reflexivity.
  - change (String.concat "," (map (fun v0 => "'" ++ v0 ++ "'") (v :: w :: l)))
      with (("'" ++ v ++ "'") ++ ("," ++
              String.concat "," (map (fun v0 => "'" ++ v0 ++ "'") (w :: l)))).
    rewrite scan_quoted by exact Hv.
    change (scan_literals None ("," ++ ?X)) with (scan_literals None X).
    rewrite (IH Hl). reflexivity.
Qed.

(** The string literals of the material condition. *)
Definition material_literals (m : material_filter) : list string :=
  match m with
  | MatLead => ["Lead"; "Lead"]
  | MatUnknown => ["Unknown"; "Unknown"]
  | MatAll => []
  end.

(** The caller's status strings, [[]] when absent. *)
Definition statuses (f : FilterOptions) : list string :=
  match status f with Some l => l | None => [] end.

Lemma scan_string_status_clause (l : list string) :
  forallb no_squote l = true ->
  scan_literals None
    ("Status IN (" ++ String.concat "," (map (fun s => "'" ++ s ++ "'") l) ++ ")") =
  (l, None).
Proof.
  intros Hl.
  change (scan_literals None ("Status IN (" ++ ?X)) with (scan_literals None X).
  rewrite scan_literals_app, (scan_quoted_list l Hl).
  simpl. rewrite app_nil_r. reflexivity.
Qed.

Lemma scan_app_closed (s1 s2 : string) (o1 : list string) :
  scan_literals None s1 = (o1, None) ->
  scan_literals None (s1 ++ s2) =
  let '(o2, st2) := scan_literals None s2 in ((o1 ++ o2)%list, st2).
Proof. intros H. rewrite scan_literals_app, H. reflexivity. Qed.

(** The emitted clause is the material condition, if any, followed by the
    status condition built from the caller's strings, if any. *)
Lemma buildWhereClause_status_suffix (f : FilterOptions) (x : string) (l : list string) :
  status f = Some (x :: l) ->
  buildWhereClause f =
    match material f with
    | MatLead => "(CustomerMaterial = 'Lead' OR SupplierMaterial = 'Lead') AND "
    | MatUnknown => "(CustomerMaterial = 'Unknown' OR SupplierMaterial = 'Unknown') AND "
    | MatAll => ""
    end ++ "Status IN (" ++
    String.concat "," (map (fun s => "'" ++ s ++ "'") (x :: l)) ++ ")".
Proof.
  destruct f as [m c s os]; simpl; intros ->.
  destruct m; reflexivity.
Qed.

(** The string literals of every clause over quote-free status strings,
    and its final scanner state. *)
Lemma scan_buildWhereClause (f : FilterOptions) :
  forallb no_squote (statuses f) = true ->
  scan_literals None (buildWhereClause f) =
    ((material_literals (material f) ++ statuses f)%list, None).
Proof.
  unfold statuses. intros Hl.
  destruct f as [m c s [[|x l]|]]; simpl in *; [destruct m; reflexivity| |destruct m; reflexivity].
  rewrite (buildWhereClause_status_suffix (mkFilter m c s (Some (x :: l))) x l eq_refl).
  simpl material.
  destruct m.
  - apply scan_string_status_clause; exact Hl.
  - rewrite (scan_app_closed _ _ ["Lead"; "Lead"]) by reflexivity.
    rewrite scan_string_status_clause by exact Hl. reflexivity.
  - rewrite (scan_app_closed _ _ ["Unknown"; "Unknown"]) by reflexivity.
    rewrite scan_string_status_clause by exact Hl. reflexivity.
Qed.

End WhereProofs.

(* ------------------------------------------------------------------------- *)
(** ** C3: the only dynamic values in a WHERE clause are status values *)

Module C3.
Import Where WhereProofs.

(** Claim C3 (counterexample): a status string outside the enumeration
    VERIFIED / ASSUMED / UNKNOWN is interpolated as it is, and one holding
    a single quote ends its literal early, its remainder being read as
    predicate text. *)
Lemma C3_free_text_counterexample :
  quoted_literals (buildWhereClause (mkFilter MatAll true true (Some ["DROP TABLE"]))) =
    ["DROP TABLE"] /\
  ~ In "DROP TABLE" ["VERIFIED"; "ASSUMED"; "UNKNOWN"] /\
  buildWhereClause (mkFilter MatAll true true (Some ["x' OR '1'='1"])) =
    "Status IN ('x' OR '1'='1')".
Proof.
  split; [reflexivity|]. split; [|reflexivity].
  simpl. intros [H|[H|[H|[]]]]; discriminate H.
Qed.

(** Claim C3 (corrected): the builder interpolates each caller-supplied
    status string verbatim between single quotes, with no escaping and
    no membership check, as the last condition of the clause; when no
    status string holds a single quote, the literals of the predicate are
    exactly the fixed material constants followed by the caller's status
    strings, and no literal is left open. *)
Theorem C3_status_strings_interpolated (f : FilterOptions) :
  (forall x l, status f = Some (x :: l) ->
     exists pre, buildWhereClause f =
       pre ++ "Status IN (" ++ String.concat "," (map (fun s => "'" ++ s ++ "'") (x :: l)) ++ ")") /\
  (forallb no_squote (statuses f) = true ->
     quoted_literals (buildWhereClause f) =
       (material_literals (material f) ++ statuses f)%list /\
     snd (scan_literals None (buildWhereClause f)) = None).
Proof.
  split.
  - intros x l Hs. eexists. apply (buildWhereClause_status_suffix f x l Hs).
  - intros Hl. unfold quoted_literals. rewrite (scan_buildWhereClause f Hl).
    split; reflexivity.
Qed.

End C3.

(* ------------------------------------------------------------------------- *)
(** ** C5: shape and meaning of the emitted predicate *)

Module C5.
Import Where WhereProofs.

(** Claim C5 (counterexample): with "lead" and a status string holding a
    single quote, the status condition is not an [IN] over the literal
    status list: its literals are "x", "1" and "1". *)
Lemma C5_quoted_status_counterexample :
  buildWhereClause (mkFilter MatLead true true (Some ["x' OR '1'='1"])) =
    "(CustomerMaterial = 'Lead' OR SupplierMaterial = 'Lead') AND Status IN ('x' OR '1'='1')" /\
  quoted_literals (buildWhereClause (mkFilter MatLead true true (Some ["x' OR '1'='1"]))) =
    ["Lead"; "Lead"; "x"; "1"; "1"].
Proof. split; reflexivity. Qed.

(** Claim C5 (corrected): with "all materials" and no status filter the
    builder emits [1=1], which holds for every row; with "lead" and no
    status filter it emits a predicate that holds exactly on the rows
    whose customer-side or supplier-side material is ['Lead']; with a
    material condition and a non-empty status list it emits the two
    conditions joined by [AND], the status one being [Status IN] over the
    caller's strings each wrapped in single quotes without escaping; when
    no status string holds a single quote, that is an [IN] over the
    literal status list: the clause's literals are the material constants
    and the status strings, and it holds exactly on the rows matching the
    material and having one of the listed statuses. *)
Theorem C5_where_clause_meaning :
  (forall c s os, (os = None \/ os = Some []) ->
     buildWhereClause (mkFilter MatAll c s os) = render PTrue /\
     forall r, eval PTrue r = true) /\
  (forall c s os, (os = None \/ os = Some []) ->
     buildWhereClause (mkFilter MatLead c s os) =
       render (POr (PEq "CustomerMaterial" "Lead") (PEq "SupplierMaterial" "Lead")) /\
     forall r, eval (POr (PEq "CustomerMaterial" "Lead") (PEq "SupplierMaterial" "Lead")) r = true <->
               r "CustomerMaterial" = Some "Lead" \/ r "SupplierMaterial" = Some "Lead") /\
  (forall m v c s l,
     (m = MatLead /\ v = "Lead") \/ (m = MatUnknown /\ v = "Unknown") ->
     l <> [] ->
     buildWhereClause (mkFilter m c s (Some l)) =
       render (PAnd (POr (PEq "CustomerMaterial" v) (PEq "SupplierMaterial" v))
                    (PIn "Status" l)) /\
     (forallb no_squote l = true ->
      quoted_literals (buildWhereClause (mkFilter m c s (Some l))) = (v :: v :: l)%list /\
      forall r, eval (PAnd (POr (PEq "CustomerMaterial" v) (PEq "SupplierMaterial" v))
                           (PIn "Status" l)) r = true <->
                (r "CustomerMaterial" = Some v \/ r "SupplierMaterial" = Some v) /\
                exists x, r "Status" = Some x /\ In x l)).
Proof.
  split; [|split].
  - intros c s os [-> | ->]; split; reflexivity.
  - intros c s os Hos. split; [destruct Hos as [-> | ->]; reflexivity|].
    intros r; simpl.
    destruct (r "CustomerMaterial") as [a|], (r "SupplierMaterial") as [b|]; simpl;
      rewrite ?orb_true_iff, ?String.eqb_eq; split;
      intuition congruence.
  - intros m v c s l Hm Hl. destruct l as [|x l]; [contradiction|]. split; [|intros Hq; split].
    + rewrite (buildWhereClause_status_suffix (mkFilter m c s (Some (x :: l))) x l eq_refl).
      destruct Hm as [[-> ->] | [-> ->]]; reflexivity.
    + unfold quoted_literals.
      rewrite (scan_buildWhereClause (mkFilter m c s (Some (x :: l))) Hq).
      destruct Hm as [[-> ->] | [-> ->]]; reflexivity.
    + intros r. cbn [eval]. rewrite andb_true_iff, orb_true_iff.
      assert (Hst : (match r "Status" with
                     | Some y => existsb (String.eqb y) (x :: l)
                     | None => false end = true) <->
                    exists y, r "Status" = Some y /\ In y (x :: l)).
      { destruct (r "Status") as [y|].
        - rewrite existsb_exists. split.
          + intros (z & Hz & Heq). apply String.eqb_eq in Heq; subst z.
            exists y; auto.
          + intros (y' & Hy & Hin). inversion Hy; subst y'.
            exists y; split; [exact Hin | apply String.eqb_refl].
        - split; [discriminate | intros (y & Hy & _); discriminate]. }
      rewrite Hst.
      destruct (r "CustomerMaterial") as [a|], (r "SupplierMaterial") as [b|];
        rewrite ?String.eqb_eq; intuition congruence.
Qed.

End C5.

(* ------------------------------------------------------------------------- *)
(** ** Lemmas on the string helpers *)

Module StringProofs.

Lemma list_includes_In (l : list string) (v : string) :
  list_includes l v = true <-> In v l.
Proof.
  unfold list_includes. rewrite existsb_exists. split.
  - intros (x & Hx & Heq). apply String.eqb_eq in Heq. subst; exact Hx.
  - intros Hin. exists v. split; [exact Hin | apply String.eqb_refl].
Qed.

Lemma list_includes_not_In (l : list string) (v : string) :
  ~ In v l -> list_includes l v = false.
Proof.
  intros H. destruct (list_includes l v) eqn:E; [|reflexivity].
  apply list_includes_In in E. contradiction.
Qed.

Lemma prefix_spec (t s : string) :
  String.prefix t s = true <-> exists q, s = t ++ q.
Proof.
  revert s; induction t as [|a t IH]; intros s.
  - split; [intros _; exists s; reflexivity | intros _; destruct s; reflexivity].
  - destruct s as [|b s]; simpl.
    + split; [discriminate | intros (q & Hq); discriminate].
    + destruct (ascii_dec a b) as [<-|Hab].
      * rewrite IH. split; intros (q & Hq); exists q; congruence.
      * split; [discriminate|]. intros (q & Hq). inversion Hq; congruence.
Qed.

Lemma includes_eq (s t : string) :
  includes s t =
  String.prefix t s ||
  match s with EmptyString => false | String _ rest => includes rest t end.
Proof. destruct s; reflexivity. Qed.

(** [s.includes(t)] is the substring relation. *)
Lemma includes_spec (s t : string) :
  includes s t = true <-> exists p q, s = p ++ t ++ q.
Proof.
  induction s as [|c s IH]; rewrite includes_eq, orb_true_iff, prefix_spec.
  - split.
    + intros [(q & Hq) | Hf]; [|discriminate]. exists "", q. exact Hq.
    + intros (p & q & Hpq). left. destruct p; [exists q; exact Hpq | discriminate].
  - rewrite IH. split.
    + intros [(q & Hq) | (p & q & Hpq)].
      * exists "", q. exact Hq.
      * exists (String c p), q. simpl; congruence.
    + intros (p & q & Hpq). destruct p as [|c' p].
      * left. exists q. exact Hpq.
      * right. inversion Hpq; subst. exists p, q. reflexivity.
Qed.

End StringProofs.

(* ------------------------------------------------------------------------- *)
(** ** C4: material labels *)

Module C4.
Import Dashboard StringProofs.

(** Claim C4, as stated: every non-empty string other than the listed short
    codes ("pb", "l", "cu", "galv", "unk", "u") is returned unchanged.  The
    full names are matched too: the dataset value "Unknown" is labelled
    "Not determined", not "Unknown". *)
Lemma C4_full_name_counterexample :
  ~ In (to_lower "Unknown") ["pb"; "l"; "cu"; "galv"; "unk"; "u"; ""] /\
  MATERIAL_LABEL (Some "Unknown") = "Not determined".
Proof.
  split; [simpl; intuition discriminate | reflexivity].
Qed.

(** Claim C4 (amended): matching is on the lower-cased code;
    "lead"/"pb"/"l" give Lead, "copper"/"cu" give Copper,
    "galv"/"galvanized" give Galvanized Steel, "unknown"/"unk"/"u", the
    empty string and an absent value give Not determined; every string
    whose lower-cased form is none of these is returned unchanged. *)
Theorem C4_material_label (c : string) :
  MATERIAL_LABEL None = "Not determined" /\
  (In (to_lower c) ["lead"; "pb"; "l"] -> MATERIAL_LABEL (Some c) = "Lead") /\
  (In (to_lower c) ["copper"; "cu"] -> MATERIAL_LABEL (Some c) = "Copper") /\
  (In (to_lower c) ["galv"; "galvanized"] ->
     MATERIAL_LABEL (Some c) = "Galvanized Steel") /\
  (In (to_lower c) ["unknown"; "unk"; "u"; ""] ->
     MATERIAL_LABEL (Some c) = "Not determined") /\
  (~ In (to_lower c) ["lead"; "pb"; "l"; "copper"; "cu"; "galv"; "galvanized";
                      "unknown"; "unk"; "u"; ""] ->
     MATERIAL_LABEL (Some c) = c).
Proof.
  unfold MATERIAL_LABEL; cbv zeta. remember (to_lower c) as v eqn:Hv; clear Hv.
  split; [reflexivity|].
  repeat split; intros H.
  - simpl in H; repeat destruct H as [<-|H]; try reflexivity; contradiction.
  - simpl in H; repeat destruct H as [<-|H]; try reflexivity; contradiction.
  - simpl in H; repeat destruct H as [<-|H]; try reflexivity; contradiction.
  - simpl in H; repeat destruct H as [<-|H]; try reflexivity; contradiction.
  - rewrite !list_includes_not_In; [reflexivity| |  | |];
      intros Hin; apply H; simpl in Hin |- *; tauto.
Qed.

End C4.

(* ------------------------------------------------------------------------- *)
(** ** C8: client-side address filter *)

Module DashboardProofs.
Import Feature Dashboard StringProofs.

(** The per-location test of [filteredLocations] on a string address. *)
Definition keeps (searchTerm : string) (loc : Location) : bool :=
  if String.eqb searchTerm "" then true
  else match address loc with
       | JStr a => includes (to_lower a) (to_lower searchTerm)
       | _ => false
       end.

Lemma filteredLocations_filter (searchTerm : string) (locs : list Location) :
  Forall (fun l => exists a, address l = JStr a) locs ->
  filteredLocations searchTerm locs = JOk (filter (keeps searchTerm) locs).
Proof.
  induction locs as [|loc locs IH]; intros Hall; [reflexivity|].
  inversion Hall as [|? ? (a & Ha) Hrest]; subst.
  simpl. rewrite (IH Hrest). unfold keeps.
  destruct (String.eqb searchTerm ""); [reflexivity|]. rewrite Ha. reflexivity.
Qed.

Lemma keeps_true_iff (searchTerm : string) (loc : Location) (a : string) :
  address loc = JStr a ->
  keeps searchTerm loc = true <->
  exists p q, to_lower a = p ++ to_lower searchTerm ++ q.
Proof.
  intros Ha. unfold keeps.
  destruct (String.eqb_spec searchTerm "") as [->|Hne].
  - split; [intros _ | reflexivity]. exists (to_lower a), "".
    simpl. rewrite WhereProofs.str_app_nil_r. reflexivity.
  - rewrite Ha. apply includes_spec.
Qed.

End DashboardProofs.

Module C8.
Import Feature Dashboard StringProofs DashboardProofs.

(** Claim C8: over a list of locations with string addresses, the
    client-side filter keeps exactly the locations whose lower-cased
    address contains the lower-cased search term, so its result is a
    subset of the input, never longer than it, and equal to it when the
    search term is empty. *)
Theorem C8_filtered_locations_refine (searchTerm : string) (locs : list Location) :
  Forall (fun l => exists a, address l = JStr a) locs ->
  exists out, filteredLocations searchTerm locs = JOk out /\
    (forall l, In l out <->
       In l locs /\ exists a, address l = JStr a /\
                    exists p q, to_lower a = p ++ to_lower searchTerm ++ q) /\
    incl out locs /\
    List.length out <= List.length locs /\
    (searchTerm = "" -> out = locs).
Proof.
  intros Hall. exists (filter (keeps searchTerm) locs).
  split; [apply filteredLocations_filter, Hall|].
  split; [|split; [apply incl_filter|split; [apply filter_length_le|]]].
  - intros l. rewrite filter_In. split.
    + intros [Hin Hk]. split; [exact Hin|].
      rewrite Forall_forall in Hall. destruct (Hall l Hin) as (a & Ha).
      exists a. split; [exact Ha|]. apply (keeps_true_iff _ _ a Ha), Hk.
    + intros [Hin (a & Ha & Hsub)]. split; [exact Hin|].
      apply (keeps_true_iff _ _ a Ha), Hsub.
  - intros ->. apply forallb_filter_id. apply forallb_forall. reflexivity.
Qed.

Lemma C8_filtered_locations_refine_witness :
  exists out,
    filteredLocations "oak"
      [mkLocation (JNum 1) (JStr "12 Oak Knoll") JUndef JUndef false JUndef JUndef JUndef JUndef;
       mkLocation (JNum 2) (JStr "5 Elm Tree Rd") JUndef JUndef false JUndef JUndef JUndef JUndef]
    = JOk out /\ List.length out <= 2.
Proof.
  destruct (C8_filtered_locations_refine "oak"
      [mkLocation (JNum 1) (JStr "12 Oak Knoll") JUndef JUndef false JUndef JUndef JUndef JUndef;
       mkLocation (JNum 2) (JStr "5 Elm Tree Rd") JUndef JUndef false JUndef JUndef JUndef JUndef])
    as (out & Hout & _ & _ & Hlen & _).
  - repeat constructor; eexists; reflexivity.
  - exists out. split; [exact Hout | exact Hlen].
Defined.

End C8.

(* ------------------------------------------------------------------------- *)
(** ** C10: normalisation defaults of [featureToLocation] *)

Module C10.
Import Feature.

(** Claim C10: [featureToLocation] is a total function that replaces a
    missing ([undefined] or [null]) address by "Unknown Address", missing
    materials by "Unknown", a missing build year by 0, a missing status by
    "UNKNOWN", and a missing geometry by the coordinates (0, 0); the
    notification flag is true exactly when the raw value is the number 1
    or the boolean [true]. *)
Theorem C10_featureToLocation_defaults (f : feature) :
  ((Address (attributes f) = JUndef \/ Address (attributes f) = JNull) ->
     address (featureToLocation f) = JStr "Unknown Address") /\
  ((CustomerMaterial (attributes f) = JUndef \/ CustomerMaterial (attributes f) = JNull) ->
     customerMaterial (featureToLocation f) = JStr "Unknown") /\
  ((SupplierMaterial (attributes f) = JUndef \/ SupplierMaterial (attributes f) = JNull) ->
     supplierMaterial (featureToLocation f) = JStr "Unknown") /\
  (letterSent (featureToLocation f) = true <->
     LetterSent (attributes f) = JNum 1 \/ LetterSent (attributes f) = JBool true) /\
  ((YearBuilt (attributes f) = JUndef \/ YearBuilt (attributes f) = JNull) ->
     buildYear (featureToLocation f) = JNum 0) /\
  ((Status (attributes f) = JUndef \/ Status (attributes f) = JNull) ->
     status (featureToLocation f) = JStr "UNKNOWN") /\
  (geometry f = None ->
     lat (featureToLocation f) = JNum 0 /\ lng (featureToLocation f) = JNum 0).
Proof.
  destruct f as [[oid addr cm sm ls yb st] g]; unfold featureToLocation; simpl.
  split; [intros [-> | ->]; reflexivity|].
  split; [intros [-> | ->]; reflexivity|].
  split; [intros [-> | ->]; reflexivity|].
  split.
  - destruct ls as [| |[]|n|s]; simpl; rewrite ?orb_false_r, ?Z.eqb_eq;
      split; intros; intuition congruence.
  - split; [intros [-> | ->]; reflexivity|].
    split; [intros [-> | ->]; reflexivity|].
    intros ->; split; reflexivity.
Qed.

End C10.

(* ------------------------------------------------------------------------- *)
(** ** Lemmas on the feature service client *)

Module FeatureServiceProofs.
Import Feature FeatureService.

Lemma js_strict_eq_str (v : jsval) (s : string) :
  js_strict_eq v (JStr s) = true <-> v = JStr s.
Proof.
  destruct v; simpl; split; try discriminate; try (intros H; discriminate H).
  - rewrite String.eqb_eq; congruence.
  - intros H; inversion H; apply String.eqb_refl.
Qed.

Lemma filter_length_perm {A} (p : A -> bool) (l l' : list A) :
  Permutation l l' -> List.length (filter p l) = List.length (filter p l').
Proof.
  induction 1 as [| x l l' _ IH | x y l | l l' l'' _ IH1 _ IH2]; simpl.
  - reflexivity.
  - destruct (p x); simpl; congruence.
  - destruct (p x), (p y); reflexivity.
  - congruence.
Qed.

Lemma count_features_app (fs1 fs2 : list feature) :
  count_features (fs1 ++ fs2) = add_stats (count_features fs1) (count_features fs2).
Proof.
  unfold count_features, add_stats; simpl.
  rewrite length_app, !filter_app, !length_app. reflexivity.
Qed.

(** The failures other than a non-2xx status: a rejected fetch, an
    unparsable body or an error payload. *)
Lemma failure_asymmetry_payload (resp : response) (statusText : string) :
  resp = NetErr \/
  (exists ok, resp = Resp ok BodyUnparsable) \/
  (exists ok m, resp = Resp ok (BodyError m)) ->
  (exists m, queryFeatures resp statusText = JErr m) /\
  (exists m, queryFeaturesInExtent resp = JErr m) /\
  getFeatureStats resp = zero_stats /\
  queryFeatureById resp = None.
Proof.
  intros [-> | [(ok & ->) | (ok & m & ->)]];
    [| destruct ok | destruct ok]; simpl;
    repeat split; eexists; reflexivity.
Qed.

End FeatureServiceProofs.

(* ------------------------------------------------------------------------- *)
(** ** C6: failure handling of the feature service client *)

Module C6.
Import Feature FeatureService.

(** Claim C6 (code defect): a non-2xx response whose body still carries a
    feature array is rejected by [queryFeatures], which tests
    [response.ok], but [queryFeaturesInExtent] returns the features,
    [queryFeatureById] returns the first one and [getFeatureStats] counts
    them, since none of the three tests [response.ok]. *)
Theorem C6_non_ok_response_accepted :
  (forall statusText,
     queryFeatures (Resp false (BodyFeatures [stat_feature "Lead" "Copper" "VERIFIED"]))
       statusText = JErr ("Feature service query failed: " ++ statusText)) /\
  queryFeaturesInExtent (Resp false (BodyFeatures [stat_feature "Lead" "Copper" "VERIFIED"]))
    = JOk [featureToLocation (stat_feature "Lead" "Copper" "VERIFIED")] /\
  queryFeatureById (Resp false (BodyFeatures [stat_feature "Lead" "Copper" "VERIFIED"]))
    = Some (featureToLocation (stat_feature "Lead" "Copper" "VERIFIED")) /\
  getFeatureStats (Resp false (BodyFeatures [stat_feature "Lead" "Copper" "VERIFIED"]))
    = mkStats 1 1 0 1 0.
Proof. split; [intros statusText; reflexivity | repeat split]. Qed.

End C6.

(* ------------------------------------------------------------------------- *)
(** ** C7: client-side counts of [getFeatureStats] *)

Module C7.
Import Feature FeatureService FeatureServiceProofs.

(** Claim C7: over a fetched feature array, [getFeatureStats] counts
    client-side: no records give zero counts; the counts of a concatenation
    are the sums of the counts; a single record counts once in [total],
    once in [lead] exactly when one of its material fields is "Lead", once
    in [unknown] exactly when one is "Unknown", once in [verified] or
    [assumed] exactly when its status is that value; the counts do not
    depend on the order of the records; and the fixture with 2 lead, 3
    unknown, 5 verified and 2 assumed records gives exactly those counts. *)
Theorem C7_stats_counts :
  (forall ok, getFeatureStats (Resp ok (BodyFeatures [])) = zero_stats) /\
  (forall ok fs1 fs2,
     getFeatureStats (Resp ok (BodyFeatures (fs1 ++ fs2))) =
     add_stats (getFeatureStats (Resp ok (BodyFeatures fs1)))
               (getFeatureStats (Resp ok (BodyFeatures fs2)))) /\
  (forall ok f,
     total (getFeatureStats (Resp ok (BodyFeatures [f]))) = 1 /\
     lead (getFeatureStats (Resp ok (BodyFeatures [f]))) <= 1 /\
     (lead (getFeatureStats (Resp ok (BodyFeatures [f]))) = 1 <->
        CustomerMaterial (attributes f) = JStr "Lead" \/
        SupplierMaterial (attributes f) = JStr "Lead") /\
     unknown (getFeatureStats (Resp ok (BodyFeatures [f]))) <= 1 /\
     (unknown (getFeatureStats (Resp ok (BodyFeatures [f]))) = 1 <->
        CustomerMaterial (attributes f) = JStr "Unknown" \/
        SupplierMaterial (attributes f) = JStr "Unknown") /\
     verified (getFeatureStats (Resp ok (BodyFeatures [f]))) <= 1 /\
     (verified (getFeatureStats (Resp ok (BodyFeatures [f]))) = 1 <->
        Status (attributes f) = JStr "VERIFIED") /\
     assumed (getFeatureStats (Resp ok (BodyFeatures [f]))) <= 1 /\
     (assumed (getFeatureStats (Resp ok (BodyFeatures [f]))) = 1 <->
        Status (attributes f) = JStr "ASSUMED")) /\
  (forall ok fs fs', Permutation fs fs' ->
     getFeatureStats (Resp ok (BodyFeatures fs)) =
     getFeatureStats (Resp ok (BodyFeatures fs'))) /\
  getFeatureStats (Resp true (BodyFeatures stats_fixture)) = mkStats 7 2 3 5 2.
Proof.
  split; [reflexivity|]. split; [intros; apply count_features_app|].
  split; [|split; [|reflexivity]].
  - intros ok f. simpl.
    split; [reflexivity|].
    repeat match goal with
      | |- context [js_strict_eq ?v (JStr ?s)] =>
          let E := fresh "E" in
          destruct (js_strict_eq v (JStr s)) eqn:E;
          [apply js_strict_eq_str in E
          | assert (v <> JStr s) by (intros Heq; apply js_strict_eq_str in Heq; congruence)]
      end; simpl; repeat split; intros; try lia; intuition congruence.
  - intros ok fs fs' Hp. simpl. unfold count_features.
    rewrite (Permutation_length Hp), !(filter_length_perm _ _ _ Hp). reflexivity.
Qed.

End C7.

(* ------------------------------------------------------------------------- *)
(** ** C9: forward search *)

Module C9.
Import Geocode.

(** Claim C9: a search text shorter than 3 characters gives an empty result
    and issues no request; a longer one issues one request asking for at
    most 10 candidates ([maxLocations=10]); a rejected fetch, a non-2xx
    status, an unparsable body, an error payload, a body without candidates
    or a malformed candidate all give an empty result. *)
Theorem C9_geocode_forward_search :
  (forall text center resp, String.length text < 3 ->
     geocodeAddress text center resp = (None, [])) /\
  (forall text center resp, 3 <= String.length text ->
     exists params, fst (geocodeAddress text center resp) = Some params /\
       find (fun kv => String.eqb (fst kv) "maxLocations") params =
         Some ("maxLocations", "10")) /\
  (forall text center resp,
     (resp = GNetErr \/ (exists b, resp = GResp false b) \/
      (exists ok, resp = GResp ok GUnparsable) \/
      (exists ok m, resp = GResp ok (GError m)) \/
      (exists ok, resp = GResp ok GNoCandidates) \/
      (exists ok cs, resp = GResp ok (GCandidates cs) /\ map_candidates cs = None)) ->
     snd (geocodeAddress text center resp) = []).
Proof.
  split; [|split].
  - intros text center resp Hlen. unfold geocodeAddress.
    apply Nat.ltb_lt in Hlen. rewrite Hlen, orb_true_r. reflexivity.
  - intros text center resp Hlen. unfold geocodeAddress.
    assert (Hl : Nat.ltb (String.length text) 3 = false) by (apply Nat.ltb_ge; exact Hlen).
    assert (He : String.eqb text "" = false)
      by (apply String.eqb_neq; intros ->; simpl in Hlen; lia).
    rewrite Hl, He. simpl. eexists; split; reflexivity.
  - intros text center resp H. unfold geocodeAddress.
    destruct (String.eqb text "" || Nat.ltb (String.length text) 3); [reflexivity|].
    simpl.
    destruct H as [-> | [(b & ->) | [(ok & ->) | [(ok & m & ->) | [(ok & ->) | (ok & cs & -> & Hc)]]]]];
      try destruct ok; try reflexivity.
    rewrite Hc. reflexivity.
Qed.

End C9.

(* ========================================================================= *)
(** * Further properties of the code *)

(* ------------------------------------------------------------------------- *)
(** ** Token lifetime, refresh, callback and login *)

Module AuthFlowProofs.
Import Auth AuthFlow.

Lemma str_missing_false (t : string) :
  t <> "" -> str_missing (Some t) = false.
Proof. intros H; simpl; apply String.eqb_neq, H. Qed.

(** The token set at time [now] with lifetime [expires_in] seconds is
    valid exactly on [[now, now + expires_in * 1000)]. *)
Lemma fresh_token_window (t : string) (rt cv : option string) (now ei t' : Z) :
  t <> "" -> (0 <= now)%Z -> (0 < ei)%Z -> (0 <= t')%Z ->
  isAuthenticated (mkAuth (Some t) rt (Some (now + ei * 1000)%Z) cv) t' = true <->
  (t' < now + ei * 1000)%Z.
Proof.
  intros Ht Hnow Hei Ht'. unfold isAuthenticated. cbn [accessToken tokenExpiry].
  rewrite str_missing_false by exact Ht.
  destruct (Z.eqb_spec (now + ei * 1000) 0) as [E|E]; [lia|].
  apply Z.ltb_lt.
Qed.

(** A successful token exchange or refresh makes the service authenticated
    from [now] until just before [now + expires_in * 1000] and not after,
    provided the token is a non-empty string and [expires_in > 0]. *)
Theorem token_valid_window_after_exchange (st : auth_state) (ss : session)
    (code : string) (now : Z) (d : token_data) (t : string) :
  access_token d = Some t -> t <> "" -> (0 <= now)%Z -> (0 < expires_in d)%Z ->
  (str_missing (pkce_verifier ss) = false ->
   forall t', (0 <= t')%Z ->
   isAuthenticated (snd (fst (handleCallback st ss code now (TokResp true (Some d))))) t'
     = true <-> (t' < now + expires_in d * 1000)%Z) /\
  (str_missing (refreshToken st) = false ->
   forall t', (0 <= t')%Z ->
   isAuthenticated (snd (fst (refreshAccessToken st ss now (TokResp true (Some d))))) t'
     = true <-> (t' < now + expires_in d * 1000)%Z).
Proof.
  intros Hd Ht Hnow Hei. split.
  - intros Hv t' Ht'. unfold handleCallback. rewrite Hv. simpl. rewrite Hd.
    apply fresh_token_window; auto.
  - intros Hr t' Ht'. unfold refreshAccessToken. rewrite Hr. simpl. rewrite Hd.
    apply fresh_token_window; auto.
Qed.

Lemma token_valid_window_after_exchange_witness :
  isAuthenticated
    (snd (fst (handleCallback init_state
                 (mkSession (Some "v") (Some "/map")) "c" 0
                 (TokResp true (Some (mkTokenData (Some "t") (Some "r") 60)))))) 59999 = true.
Proof.
  apply (proj1 (token_valid_window_after_exchange init_state
           (mkSession (Some "v") (Some "/map")) "c" 0 (mkTokenData (Some "t") (Some "r") 60) "t"
           eq_refl ltac:(discriminate) ltac:(lia) ltac:(reflexivity))
           eq_refl 59999%Z ltac:(lia)).
  reflexivity.
Defined.

(** [refreshAccessToken()]: without a refresh token it throws and changes
    nothing; on a non-2xx response it throws after a full [logout()], so
    the service is unauthenticated at any time; on success it keeps the
    refresh token, the verifier and the session storage. *)
Theorem refreshAccessToken_outcomes (st : auth_state) (ss : session) (now : Z)
    (resp : token_response) :
  let '(r, st', ss') := refreshAccessToken st ss now resp in
  (str_missing (refreshToken st) = true ->
     (exists m, r = JErr m) /\ st' = st /\ ss' = ss) /\
  (str_missing (refreshToken st) = false -> (exists b, resp = TokResp false b) ->
     (exists m, r = JErr m) /\ st' = init_state /\ ss' = mkSession None None /\
     forall t, isAuthenticated st' t = false) /\
  (r = JOk tt ->
     refreshToken st' = refreshToken st /\ codeVerifier st' = codeVerifier st /\ ss' = ss).
Proof.
  unfold refreshAccessToken.
  destruct (str_missing (refreshToken st)) eqn:E;
    [|destruct resp as [|[|] [d|]]]; simpl;
    repeat split; intros;
    repeat match goal with H : exists _, _ |- _ => destruct H end;
    try discriminate; try congruence; try (eexists; reflexivity).
Qed.

(** [checkForCallback()]: without a [code] parameter it returns [false] and
    changes nothing; when the exchange succeeds it returns [true], has
    removed both the verifier and the saved redirect path from session
    storage and rewrites the URL to the saved path, or ["/"] when none was
    saved; when the exchange fails the error propagates with fields and
    storage unchanged and the URL is left alone. *)
Theorem checkForCallback_outcomes (urlCode : option string) (st : auth_state)
    (ss : session) (now : Z) (resp : token_response) :
  let '(r, st', ss', path) := checkForCallback urlCode st ss now resp in
  ((urlCode = None \/ urlCode = Some "") ->
     r = JOk false /\ st' = st /\ ss' = ss /\ path = None) /\
  (r = JOk true ->
     pkce_verifier ss' = None /\ auth_redirect ss' = None /\
     path = Some (match auth_redirect ss with
                  | Some p => if String.eqb p "" then "/" else p
                  | None => "/" end)) /\
  ((exists m, r = JErr m) -> st' = st /\ ss' = ss /\ path = None).
Proof.
  unfold checkForCallback.
  destruct urlCode as [code|].
  2:{ split; [intros _; repeat split|]. split; [intros H; discriminate H|].
      intros [m H]; discriminate H. }
  destruct (String.eqb_spec code "") as [->|Hne].
  { split; [intros _; repeat split|]. split; [intros H; discriminate H|].
    intros [m H]; discriminate H. }
  unfold handleCallback.
  destruct (str_missing (pkce_verifier ss)).
  { split; [intros [H|H]; [discriminate H | inversion H; contradiction]|].
    split; [intros H; discriminate H|]. intros _; repeat split. }
  destruct resp as [|[|] [d|]]; simpl;
    (split; [intros [H|H]; [discriminate H | inversion H; contradiction]|]);
    (split; [|intros [m H]; try discriminate H; repeat split]);
    try (intros H; discriminate H).
  intros _. repeat split.
Qed.

(** [login()]: without a client identifier it throws and changes nothing;
    otherwise the verifier built from the random bytes is stored both in
    the [codeVerifier] field and in session storage, together with the
    current path.  With at least one random byte the verifier is non-empty,
    so a [handleCallback] that follows gets past the verifier check: a
    successful exchange then succeeds. *)
Theorem login_then_callback (clientId : string) (bytes : list nat) (pathname : string)
    (st : auth_state) (ss : session) (code : string) (now : Z) (d : token_data) :
  (clientId = "" -> login clientId bytes pathname st ss =
                    (JErr "OAuth client ID not configured", st, ss)) /\
  (clientId <> "" -> bytes <> [] ->
     let '(r, st', ss') := login clientId bytes pathname st ss in
     r = JOk tt /\
     codeVerifier st' = Some (generateRandomString bytes) /\
     pkce_verifier ss' = Some (generateRandomString bytes) /\
     auth_redirect ss' = Some pathname /\
     fst (fst (handleCallback st' ss' code now (TokResp true (Some d)))) = JOk tt).
Proof.
  split.
  - intros ->. reflexivity.
  - intros Hc Hb. unfold login.
    destruct (String.eqb_spec clientId "") as [E|_]; [contradiction|].
    repeat split.
    unfold handleCallback. cbn [pkce_verifier str_missing].
    destruct bytes as [|b bytes]; [contradiction|].
    assert (Hne : generateRandomString (b :: bytes) <> "").
    { unfold generateRandomString. simpl map.
      assert (Hp : charset_piece b <> "").
      { unfold charset_piece.
        destruct (String.get (Nat.modulo b (String.length charset)) charset);
          discriminate. }
      destruct bytes; [exact Hp|].
      destruct (charset_piece b); [contradiction | discriminate]. }
    apply String.eqb_neq in Hne. rewrite Hne. reflexivity.
Qed.

Lemma login_then_callback_witness :
  fst (fst (handleCallback
    (snd (fst (login "client" [1; 2; 3] "/map" init_state (mkSession None None))))
    (snd (login "client" [1; 2; 3] "/map" init_state (mkSession None None)))
    "code" 0 (TokResp true (Some (mkTokenData (Some "t") None 60))))) = JOk tt.
Proof.
  destruct (login_then_callback "client" [1; 2; 3] "/map" init_state (mkSession None None)
              "code" 0 (mkTokenData (Some "t") None 60)) as [_ H].
  specialize (H ltac:(discriminate) ltac:(discriminate)).
  destruct (login "client" [1; 2; 3] "/map" init_state (mkSession None None))
    as [[r st'] ss'] eqn:E.
  simpl. destruct H as (_ & _ & _ & _ & H). exact H.
Defined.

(** After [logout()] no operation can use a credential: no token is
    attached to any query, a refresh throws without a request, and a
    callback throws for want of a verifier. *)
Theorem logout_disables_credentials (st : auth_state) (ss : session) (now : Z)
    (params : list (string * string)) (code : string) (resp : token_response) :
  attach_token (fst (logout st ss)) now params = params /\
  (exists m, fst (fst (refreshAccessToken (fst (logout st ss)) (snd (logout st ss)) now resp))
             = JErr m) /\
  fst (fst (handleCallback (fst (logout st ss)) (snd (logout st ss)) code now resp))
    = JErr "PKCE verifier not found".
Proof.
  split; [reflexivity|]. split; [eexists; reflexivity | reflexivity].
Qed.

End AuthFlowProofs.

(* ------------------------------------------------------------------------- *)
(** ** PKCE strings: [generateRandomString] and [base64UrlEncode] *)

Module PkceProofs.
Import AuthFlow.

Ltac forall_lt := repeat (apply Forall_cons; [lia|]); apply Forall_nil.

Lemma get_In (s : string) (i : nat) (c : ascii) :
  String.get i s = Some c -> In c (list_ascii_of_string s).
Proof.
  revert i; induction s as [|a s IH]; intros [|i]; simpl; try discriminate.
  - intros H; inversion H; left; reflexivity.
  - intros H; right; exact (IH i H).
Qed.

Lemma get_lt (s : string) (i : nat) :
  i < String.length s -> exists c, String.get i s = Some c.
Proof.
  revert i; induction s as [|a s IH]; intros [|i] H; simpl in *; try lia.
  - exists a; reflexivity.
  - apply IH; lia.
Qed.

Lemma charset_piece_char (v : nat) :
  exists c, charset_piece v = String c "" /\ In c (list_ascii_of_string charset).
Proof.
  unfold charset_piece.
  assert (Hlt : Nat.modulo v (String.length charset) < String.length charset)
    by (apply Nat.mod_upper_bound; discriminate).
  destruct (get_lt _ _ Hlt) as [c Hc]. rewrite Hc.
  exists c. split; [reflexivity | exact (get_In _ _ _ Hc)].
Qed.

Lemma concat_empty_sep (l : list string) :
  String.concat "" l = fold_right String.append "" l.
Proof.
  induction l as [|x l IH]; [reflexivity|].
  destruct l as [|y l].
  - simpl. symmetry; apply WhereProofs.str_app_nil_r.
  - change (String.concat "" (x :: y :: l)) with (x ++ "" ++ String.concat "" (y :: l)).
    rewrite IH. reflexivity.
Qed.

(** [generateRandomString]: one character per random byte, each from the
    unreserved character set. *)
Theorem generateRandomString_shape (values : list nat) :
  String.length (generateRandomString values) = List.length values /\
  forall c, In c (list_ascii_of_string (generateRandomString values)) ->
            In c (list_ascii_of_string charset).
Proof.
  unfold generateRandomString. rewrite concat_empty_sep.
  induction values as [|v vs [IHl IHc]]; [split; [reflexivity | intros c []]|].
  simpl map; simpl fold_right.
  destruct (charset_piece_char v) as (d & Hd & Hin). rewrite Hd. simpl.
  split; [lia|]. intros c [<-|H]; [exact Hin | exact (IHc c H)].
Qed.

(** The base64url alphabet. *)
Definition url_alphabet : string :=
  "ABCDEFGHIJKLMNOPQRSTUVWXYZabcdefghijklmnopqrstuvwxyz0123456789-_".

Definition url_pipe (s : string) : string :=
  replace_all "="%char None
    (replace_all "/"%char (Some "_"%char) (replace_all "+"%char (Some "-"%char) s)).

Lemma replace_all_app (x : ascii) (y : option ascii) (s t : string) :
  replace_all x y (s ++ t) = replace_all x y s ++ replace_all x y t.
Proof.
  induction s as [|c s IH]; [reflexivity|]. simpl.
  destruct (Ascii.eqb c x); [destruct y|]; simpl; rewrite IH; reflexivity.
Qed.

Lemma url_pipe_app (s t : string) : url_pipe (s ++ t) = url_pipe s ++ url_pipe t.
Proof. unfold url_pipe. rewrite !replace_all_app. reflexivity. Qed.

(** The image of base64 digit [n] in the URL-safe output. *)
Definition url_char (n : nat) : ascii :=
  match url_pipe (String (b64_char n) "") with
  | String c _ => c
  | EmptyString => "="%char
  end.

Definition url_digit_ok (n : nat) : bool :=
  match url_pipe (String (b64_char n) "") with
  | String c EmptyString =>
      existsb (Ascii.eqb c) (list_ascii_of_string url_alphabet)
  | _ => false
  end.

Lemma url_digit_ok_all : forallb url_digit_ok (seq 0 64) = true.
Proof. vm_compute. reflexivity. Qed.

Lemma url_digit (n : nat) :
  n < 64 ->
  url_pipe (String (b64_char n) "") = String (url_char n) "" /\
  In (url_char n) (list_ascii_of_string url_alphabet).
Proof.
  intros Hn.
  pose proof (proj1 (forallb_forall _ _) url_digit_ok_all n) as H.
  rewrite in_seq in H. specialize (H ltac:(lia)).
  unfold url_digit_ok, url_char in *.
  destruct (url_pipe (String (b64_char n) "")) as [|c [|c' s]]; try discriminate.
  split; [reflexivity|].
  apply existsb_exists in H as (c'' & Hin & Heq).
  apply Ascii.eqb_eq in Heq; subst; exact Hin.
Qed.

(** The base64url digits of a list of digit indices below 64. *)
Lemma url_pipe_digits (ns : list nat) (rest : string) :
  Forall (fun n => n < 64) ns ->
  url_pipe (fold_right (fun n s => String (b64_char n) s) rest ns) =
  fold_right (fun n s => String (url_char n) s) (url_pipe rest) ns.
Proof.
  induction ns as [|n ns IH]; intros H; [reflexivity|].
  apply Forall_cons_iff in H as [Hn Hns].
  change (fold_right (fun n s => String (b64_char n) s) rest (n :: ns))
    with (String (b64_char n) "" ++ fold_right (fun n s => String (b64_char n) s) rest ns).
  rewrite url_pipe_app, (proj1 (url_digit n Hn)), (IH Hns). reflexivity.
Qed.

Lemma fold_digits_len (ns : list nat) (rest : string) :
  String.length (fold_right (fun n s => String (url_char n) s) rest ns) =
  List.length ns + String.length rest.
Proof. induction ns; simpl; lia. Qed.

Lemma fold_digits_In (ns : list nat) (rest : string) (c : ascii) :
  Forall (fun n => n < 64) ns ->
  In c (list_ascii_of_string (fold_right (fun n s => String (url_char n) s) rest ns)) ->
  In c (list_ascii_of_string url_alphabet) \/ In c (list_ascii_of_string rest).
Proof.
  induction ns as [|n ns IH]; intros H Hin; [right; exact Hin|].
  apply Forall_cons_iff in H as [Hn Hns]. simpl in Hin.
  destruct Hin as [<-|Hin]; [left; apply (url_digit n Hn) | exact (IH Hns Hin)].
Qed.

Lemma digit_bounds (a b c : nat) :
  a < 256 -> b < 256 -> c < 256 ->
  a / 4 < 64 /\ (a mod 4) * 16 + b / 16 < 64 /\
  (b mod 16) * 4 + c / 64 < 64 /\ c mod 64 < 64 /\
  (b mod 16) * 4 < 64 /\ (a mod 4) * 16 < 64.
Proof.
  intros Ha Hb Hc.
  pose proof (Nat.div_mod_eq a 4). pose proof (Nat.mod_upper_bound a 4 ltac:(lia)).
  pose proof (Nat.div_mod_eq b 16). pose proof (Nat.mod_upper_bound b 16 ltac:(lia)).
  pose proof (Nat.div_mod_eq c 64). pose proof (Nat.mod_upper_bound c 64 ltac:(lia)).
  lia.
Qed.

(** [base64UrlEncode] over bytes: only URL-safe characters, and the
    unpadded base64 length; a 32-byte SHA-256 digest gives 43 characters. *)
Theorem base64UrlEncode_shape (bytes : list nat) :
  Forall (fun b => b < 256) bytes ->
  (forall c, In c (list_ascii_of_string (base64UrlEncode bytes)) ->
             In c (list_ascii_of_string url_alphabet)) /\
  String.length (base64UrlEncode bytes) =
    4 * (List.length bytes / 3) +
    match List.length bytes mod 3 with 0 => 0 | 1 => 2 | _ => 3 end /\
  (List.length bytes = 32 -> String.length (base64UrlEncode bytes) = 43).
Proof.
  intros Hall.
  assert (Hmain : (forall c, In c (list_ascii_of_string (base64UrlEncode bytes)) ->
                             In c (list_ascii_of_string url_alphabet)) /\
                  String.length (base64UrlEncode bytes) =
                    4 * (List.length bytes / 3) +
                    match List.length bytes mod 3 with 0 => 0 | 1 => 2 | _ => 3 end).
  { change (base64UrlEncode bytes) with (url_pipe (btoa bytes)).
    remember (List.length bytes) as n eqn:Hn.
    revert bytes Hall Hn. induction n as [n IH] using lt_wf_ind.
    intros bytes Hall Hn.
    destruct bytes as [|a [|b [|c rest]]].
    - simpl in Hn; subst n. split; [intros ? []|reflexivity].
    - apply Forall_cons_iff in Hall as [Ha _]. simpl in Hn; subst n.
      destruct (digit_bounds a 0 0 Ha ltac:(lia) ltac:(lia)) as (H1 & _ & _ & _ & _ & H6).
      change (btoa [a]) with
        (fold_right (fun n s => String (b64_char n) s) "==" [a / 4; (a mod 4) * 16]).
      rewrite url_pipe_digits by forall_lt.
      split; [|reflexivity].
      intros x Hx. apply fold_digits_In in Hx; [|forall_lt].
      destruct Hx as [Hx|Hx]; [exact Hx | simpl in Hx; contradiction].
    - apply Forall_cons_iff in Hall as [Ha Hr]. apply Forall_cons_iff in Hr as [Hb _].
      simpl in Hn; subst n.
      destruct (digit_bounds a b 0 Ha Hb ltac:(lia)) as (H1 & H2 & _ & _ & H5 & _).
      change (btoa [a; b]) with
        (fold_right (fun n s => String (b64_char n) s) "="
           [a / 4; (a mod 4) * 16 + b / 16; (b mod 16) * 4]).
      rewrite url_pipe_digits by forall_lt.
      split; [|reflexivity].
      intros x Hx. apply fold_digits_In in Hx; [|forall_lt].
      destruct Hx as [Hx|Hx]; [exact Hx | simpl in Hx; contradiction].
    - apply Forall_cons_iff in Hall as [Ha Hr]. apply Forall_cons_iff in Hr as [Hb Hr'].
      apply Forall_cons_iff in Hr' as [Hc Hrest].
      destruct (digit_bounds a b c Ha Hb Hc) as (H1 & H2 & H3 & H4 & _ & _).
      change (btoa (a :: b :: c :: rest)) with
        (fold_right (fun n s => String (b64_char n) s) (btoa rest)
           [a / 4; (a mod 4) * 16 + b / 16; (b mod 16) * 4 + c / 64; c mod 64]).
      rewrite url_pipe_digits by forall_lt.
      simpl in Hn.
      destruct (IH (List.length rest) ltac:(lia) rest Hrest eq_refl) as [IHc IHl].
      split.
      + intros x Hx. apply fold_digits_In in Hx; [|forall_lt].
        destruct Hx as [Hx|Hx]; [exact Hx | exact (IHc x Hx)].
      + rewrite fold_digits_len, IHl. subst n. cbn [List.length].
        replace (S (S (S (List.length rest)))) with (List.length rest + 1 * 3) by lia.
        rewrite Nat.div_add, Nat.Div0.mod_add by lia. lia. }
  destruct Hmain as [Hc Hl]. split; [exact Hc|]. split; [exact Hl|].
  intros H32. rewrite Hl, H32. reflexivity.
Qed.

Lemma base64UrlEncode_shape_witness :
  String.length (base64UrlEncode [77; 97; 110; 255]) =
    4 * (4 / 3) + 2.
Proof.
  destruct (base64UrlEncode_shape [77; 97; 110; 255]) as (_ & Hl & _).
  - forall_lt.
  - exact Hl.
Defined.

End PkceProofs.

(* ------------------------------------------------------------------------- *)
(** ** The WHERE clause builder over [status?: string[]] *)

Module WhereSrcProofs.
Import Where WhereProofs.

(** Quote-free status strings come back as exactly the literals of the
    clause, after the material constants, and no literal is left open;
    a status string holding a quote is not escaped and ends its literal
    early, so its remainder is read as SQL. *)
Theorem WhereSrc_status_literals (m : material_filter) (c s : bool) (l : list string) :
  forallb no_squote l = true ->
  scan_literals None (buildWhereClause (mkFilter m c s (Some l))) =
    ((material_literals m ++ l)%list, None) /\
  buildWhereClause (mkFilter MatAll true true (Some ["x' OR '1'='1"])) =
    "Status IN ('x' OR '1'='1')" /\
  quoted_literals
    (buildWhereClause (mkFilter MatAll true true (Some ["x' OR '1'='1"]))) =
    ["x"; "1"; "1"].
Proof.
  intros Hl. split; [|split; reflexivity].
  exact (scan_buildWhereClause (mkFilter m c s (Some l)) Hl).
Qed.

Lemma WhereSrc_status_literals_witness :
  forallb no_squote ["VERIFIED"; "O Brien"] = true /\
  scan_literals None
    (buildWhereClause (mkFilter MatLead true true (Some ["VERIFIED"; "O Brien"]))) =
    ((material_literals MatLead ++ ["VERIFIED"; "O Brien"])%list, None).
Proof.
  split; [reflexivity|].
  exact (proj1 (WhereSrc_status_literals MatLead true true ["VERIFIED"; "O Brien"] eq_refl)).
Defined.

End WhereSrcProofs.

(* ------------------------------------------------------------------------- *)
(** ** Material colours, labels and the lead banner *)

Module DashboardViewProofs.
Import Dashboard DashboardView.

(** The colour of a material badge agrees with its label: amber exactly
    for Lead, emerald exactly for Copper, slate only for Galvanized Steel;
    the raw value "Galvanized Steel", passed through by the label, is
    grey. *)
Theorem material_color_matches_label (s : string) :
  (getMaterialColor s = "text-amber-700 bg-amber-50 border-amber-200" <->
   MATERIAL_LABEL (Some s) = "Lead") /\
  (getMaterialColor s = "text-emerald-700 bg-emerald-50 border-emerald-200" <->
   MATERIAL_LABEL (Some s) = "Copper") /\
  (getMaterialColor s = "text-slate-700 bg-slate-50 border-slate-200" ->
   MATERIAL_LABEL (Some s) = "Galvanized Steel") /\
  MATERIAL_LABEL (Some "Galvanized Steel") = "Galvanized Steel" /\
  getMaterialColor "Galvanized Steel" = "text-gray-600 bg-gray-50 border-gray-200".
Proof.
  split; [|split; [|split; [|split; reflexivity]]];
  cbv beta zeta iota delta [getMaterialColor MATERIAL_LABEL];
  destruct (list_includes ["lead"; "pb"; "l"] (to_lower s)) eqn:E1;
  destruct (list_includes ["copper"; "cu"] (to_lower s)) eqn:E2;
  destruct (list_includes ["galv"; "galvanized"] (to_lower s)) eqn:E3;
  destruct (list_includes ["unknown"; "unk"; "u"; ""] (to_lower s));
  try split; intros H; try reflexivity; try discriminate;
  subst s; vm_compute in E1, E2; discriminate.
Qed.

(** The lead banner is shown only when one side is labelled Lead, but
    not for every such side: "Pb" is labelled Lead and coloured amber
    without a banner. *)
Theorem lead_banner_label (cm sm : string) :
  (showLeadBanner cm sm = true ->
   MATERIAL_LABEL (Some cm) = "Lead" \/ MATERIAL_LABEL (Some sm) = "Lead") /\
  showLeadBanner "Pb" "Copper" = false /\
  MATERIAL_LABEL (Some "Pb") = "Lead" /\
  getMaterialColor "Pb" = "text-amber-700 bg-amber-50 border-amber-200".
Proof.
  split; [|split; [reflexivity|split; reflexivity]].
  unfold showLeadBanner. intros H.
  apply orb_true_iff in H as [H|H]; apply String.eqb_eq in H;
    [left|right]; cbv beta zeta iota delta [MATERIAL_LABEL]; rewrite H; reflexivity.
Qed.

End DashboardViewProofs.

(* ------------------------------------------------------------------------- *)
(** ** Feature queries, the layer hook and the client-side search *)

Module FeatureFlowProofs.
Import Feature Dashboard FeatureService FeatureLayer DashboardProofs.

(** [fetchData] after a successful query holds that data; a later failed
    refetch keeps the last good locations and counts and reports the
    error; a non-2xx feature response never replaces the data, whatever
    the statistics response. *)
Theorem fetchData_keeps_last_good (st : layer_state) (fs : list feature)
    (rs rq2 rs2 : response) (text1 text2 : string) :
  let st1 := fetchData st (Resp true (BodyFeatures fs)) text1 rs in
  locations st1 = map featureToLocation fs /\
  layer_stats st1 = getFeatureStats rs /\
  error st1 = None /\ loading st1 = false /\
  (forall m, queryFeatures rq2 text2 = JErr m ->
     let st2 := fetchData st1 rq2 text2 rs2 in
     locations st2 = map featureToLocation fs /\
     layer_stats st2 = getFeatureStats rs /\
     error st2 = Some m /\ loading st2 = false) /\
  (forall b, locations (fetchData st (Resp false b) text2 rs2) = locations st /\
             layer_stats (fetchData st (Resp false b) text2 rs2) = layer_stats st /\
             error (fetchData st (Resp false b) text2 rs2) =
               Some ("Feature service query failed: " ++ text2)).
Proof.
  cbv zeta. repeat split.
  all: unfold fetchData; try rewrite H; reflexivity.
Qed.

(** An address the search can lower-case: a string, or a falsy value that
    [featureToLocation] replaces by "Unknown Address". *)
Definition addr_safe (v : jsval) : bool :=
  match v with
  | JStr _ => true
  | _ => negb (truthy v)
  end.

Lemma featureToLocation_address (f : feature) :
  addr_safe (Address (attributes f)) = true ->
  exists a, address (featureToLocation f) = JStr a.
Proof.
  unfold featureToLocation, js_or; simpl.
  destruct (Address (attributes f)) as [| |b|n|s]; simpl; intros H;
    try (eexists; reflexivity).
  - destruct b; [discriminate|eexists; reflexivity].
  - destruct (Z.eqb n 0); [eexists; reflexivity|discriminate].
  - destruct (String.eqb s ""); eexists; reflexivity.
Qed.

Lemma filteredLocations_err (searchTerm : string) (locs : list Location) (l : Location) :
  searchTerm <> "" -> In l locs -> (forall a, address l <> JStr a) ->
  exists m, filteredLocations searchTerm locs = JErr m.
Proof.
  intros Hne. induction locs as [|l' locs IH]; intros Hin Hl; [destruct Hin|].
  simpl. apply String.eqb_neq in Hne. rewrite Hne.
  destruct Hin as [->|Hin].
  - destruct (address l) as [| | | |a]; try (eexists; reflexivity).
    exfalso; exact (Hl a eq_refl).
  - destruct (IH Hin Hl) as [m Hm]. rewrite Hm.
    destruct (address l'); try (eexists; reflexivity).
Qed.

(** The search box over the locations of [queryFeatures]: when every
    feature's [Address] is a string or falsy, the filter succeeds and
    keeps the matching locations; with a non-empty term, one feature whose
    [Address] is a truthy non-string (a number, [true]) makes it throw. *)
Theorem search_after_query (searchTerm : string) (fs : list feature) (statusText : string) :
  (forallb (fun f => addr_safe (Address (attributes f))) fs = true ->
   queryFeatures (Resp true (BodyFeatures fs)) statusText = JOk (map featureToLocation fs) /\
   filteredLocations searchTerm (map featureToLocation fs) =
     JOk (filter (keeps searchTerm) (map featureToLocation fs))) /\
  (searchTerm <> "" ->
   (exists f, In f fs /\ addr_safe (Address (attributes f)) = false) ->
   exists m, filteredLocations searchTerm (map featureToLocation fs) = JErr m).
Proof.
  split.
  - intros Hall. split; [reflexivity|].
    apply filteredLocations_filter. apply Forall_map, Forall_forall.
    intros f Hf. apply featureToLocation_address.
    exact (proj1 (forallb_forall _ _) Hall f Hf).
  - intros Hne (f & Hin & Hf).
    apply (filteredLocations_err _ _ (featureToLocation f) Hne (in_map _ _ _ Hin)).
    intros a. unfold featureToLocation, js_or; simpl.
    destruct (Address (attributes f)) as [| |b|n|s]; simpl in *; try discriminate.
    + destruct b; simpl; discriminate.
    + destruct (Z.eqb n 0); simpl in *; discriminate.
Qed.

(** On a 2xx response the three query operations agree: the extent query
    returns what [queryFeatures] returns and the lookup by id returns its
    first location ([null] when it fails or finds nothing). *)
Theorem query_variants_agree_on_ok (b : body) (statusText : string) :
  queryFeaturesInExtent (Resp true b) = queryFeatures (Resp true b) statusText /\
  queryFeatureById (Resp true b) =
    match queryFeatures (Resp true b) statusText with
    | JOk (l :: _) => Some l
    | _ => None
    end /\
  queryFeaturesInExtent NetErr = queryFeatures NetErr statusText /\
  queryFeatureById NetErr = None.
Proof.
  destruct b as [|m|[|f fs]|]; repeat split.
Qed.

Lemma filter_disjoint_length {A} (p q : A -> bool) (l : list A) :
  (forall x, p x && q x = false) ->
  List.length (filter p l) + List.length (filter q l) <= List.length l.
Proof.
  intros H. induction l as [|x l IH]; simpl; [lia|].
  specialize (H x). destruct (p x), (q x); simpl in *; try discriminate; lia.
Qed.

Lemma filter_length_le' {A} (p : A -> bool) (l : list A) :
  List.length (filter p l) <= List.length l.
Proof. apply filter_length_le. Qed.

(** The counts of [getFeatureStats] are bounded by the total, and no
    record counts both as verified and as assumed. *)
Theorem getFeatureStats_bounds (resp : response) :
  lead (getFeatureStats resp) <= total (getFeatureStats resp) /\
  unknown (getFeatureStats resp) <= total (getFeatureStats resp) /\
  verified (getFeatureStats resp) + assumed (getFeatureStats resp) <=
    total (getFeatureStats resp).
Proof.
  destruct resp as [|ok [| |fs|]]; simpl; try lia.
  unfold count_features; simpl.
  split; [apply filter_length_le'|]. split; [apply filter_length_le'|].
  apply filter_disjoint_length. intros f.
  destruct (Status (attributes f)) as [| | | |s]; simpl; try reflexivity.
  destruct (String.eqb_spec s "VERIFIED") as [->|]; reflexivity.
Qed.

End FeatureFlowProofs.

(* ------------------------------------------------------------------------- *)
(** ** Suggestions, magic-key lookup and reverse geocoding *)

Module GeocodeMoreProofs.
Import Geocode GeocodeMore.

Lemma eqb_empty_long (s : string) (n : nat) :
  1 <= n -> n <= String.length s -> String.eqb s "" = false.
Proof. destruct s; simpl; [lia|reflexivity]. Qed.

(** [getSuggestions] issues no request below two characters; from two on
    it sends the text, at most 8 suggestions and a location bias (the map
    centre by default), and returns the service's suggestions whatever
    the status code.  A two-character text gets suggestions but no
    [geocodeAddress] request. *)
Theorem getSuggestions_behaviour (text : string) (center : option (string * string))
    (resp : sugg_response) (gresp : geo_response) :
  (String.length text < 2 -> getSuggestions text center resp = (None, [])) /\
  (2 <= String.length text ->
   exists params, fst (getSuggestions text center resp) = Some params /\
     In ("text", text) params /\ In ("maxSuggestions", "8") params /\
     In ("location", match center with
                     | Some (x, y) => x ++ "," ++ y
                     | None => default_center
                     end) params) /\
  (forall ok l, 2 <= String.length text ->
   snd (getSuggestions text center (SResp ok (SBody (Some l)))) = l) /\
  (String.length text = 2 ->
   fst (getSuggestions text center resp) <> None /\
   fst (geocodeAddress text center gresp) = None).
Proof.
  unfold getSuggestions, geocodeAddress.
  split; [|split; [|split]].
  - intros H. apply Nat.ltb_lt in H. rewrite H, orb_true_r. reflexivity.
  - intros H. rewrite (eqb_empty_long text 2) by lia.
    replace (Nat.ltb (String.length text) 2) with false by (symmetry; apply Nat.ltb_ge; lia).
    eexists; split; [reflexivity|]. simpl. tauto.
  - intros ok l H. rewrite (eqb_empty_long text 2) by lia.
    replace (Nat.ltb (String.length text) 2) with false by (symmetry; apply Nat.ltb_ge; lia).
    reflexivity.
  - intros H. rewrite (eqb_empty_long text 2), H by lia. simpl.
    split; [discriminate | reflexivity].
Qed.





End GeocodeMoreProofs.

(* ------------------------------------------------------------------------- *)
(** ** [validateConfig] *)

Module ConfigProofs.
Import Config.

(** The configuration is valid exactly when the error list is empty, that
    is when the feature service URL is set and, if a client id is set, a
    redirect URI is set too; at most two errors are reported. *)
Theorem validateConfig_valid_iff (url clientId redirectUri : string) :
  (fst (validateConfig url clientId redirectUri) = true <->
   snd (validateConfig url clientId redirectUri) = []) /\
  (snd (validateConfig url clientId redirectUri) = [] <->
   url <> "" /\ (clientId = "" \/ redirectUri <> "")) /\
  List.length (snd (validateConfig url clientId redirectUri)) <= 2.
Proof.
  unfold validateConfig.
  destruct (String.eqb_spec url ""), (String.eqb_spec clientId ""),
    (String.eqb_spec redirectUri ""); simpl;
    repeat split; intros; try discriminate; try tauto; try lia;
    try (destruct H as [? [?|?]]; contradiction).
Qed.

End ConfigProofs.

(* ------------------------------------------------------------------------- *)
(** ** The sign-in round trip through [useArcGISAuth] *)

Module AuthHookProofs.
Import Auth AuthFlow AuthHook AuthFlowProofs.

Lemma generateRandomString_cons_nonempty (b : nat) (bytes : list nat) :
  generateRandomString (b :: bytes) <> "".
Proof.
  unfold generateRandomString. simpl map.
  assert (Hp : charset_piece b <> "").
  { unfold charset_piece.
    destruct (String.get (Nat.modulo b (String.length charset)) charset); discriminate. }
  destruct bytes; [exact Hp|].
  destruct (charset_piece b); [contradiction | discriminate].
Qed.

(** The check on mount: it always ends loading; without a [code] it
    reports the service's current authentication; when the callback
    throws it keeps the previous flag and shows the error. *)
Theorem checkAuth_outcomes (h : auth_hook) (urlCode : option string) (st : auth_state)
    (ss : session) (now t : Z) (resp : token_response) :
  let '(h', st', ss', path) := checkAuth h urlCode st ss now t resp in
  h_loading h' = false /\
  ((urlCode = None \/ urlCode = Some "") ->
     h_isAuthenticated h' = isAuthenticated st t /\ h_error h' = h_error h /\ path = None) /\
  (forall m, fst (fst (fst (checkForCallback urlCode st ss now resp))) = JErr m ->
     h_isAuthenticated h' = h_isAuthenticated h /\ h_error h' = Some m /\ path = None).
Proof.
  unfold checkAuth.
  destruct (checkForCallback urlCode st ss now resp) as [[[r st'] ss'] path] eqn:E.
  destruct r as [b|m0]; cbn beta iota; (split; [reflexivity|]); split.
  - intros [->| ->]; simpl in E; inversion E; subst; simpl; auto.
  - intros m Hm; discriminate Hm.
  - intros [->| ->]; discriminate E.
  - intros m Hm. inversion Hm; subst.
    unfold checkForCallback in E.
    destruct urlCode as [code|]; [|discriminate E].
    destruct (String.eqb code ""); [discriminate E|].
    destruct (handleCallback st ss code now resp) as [[[] ?] ?]; inversion E; subst.
    simpl; auto.
Qed.

(** Signing in end to end: [login] stores the verifier and the current
    path in session storage; the page comes back with a fresh service
    holding no fields; the mount check exchanges the code, and a 2xx
    response with a non-empty token and a positive lifetime leaves the
    hook authenticated exactly until the expiry, with no error, the
    session storage cleared and the URL rewritten to the saved path
    (["/"] for an empty one). *)
Theorem login_reload_callback (clientId : string) (bytes : list nat) (pathname : string)
    (st0 : auth_state) (ss0 : session) (code : string) (now t : Z)
    (d : token_data) (tok : string) :
  clientId <> "" -> bytes <> [] -> code <> "" ->
  access_token d = Some tok -> tok <> "" -> (0 <= now)%Z -> (0 < expires_in d)%Z ->
  (0 <= t)%Z ->
  let '(_, _, ss1) := login clientId bytes pathname st0 ss0 in
  let '(h, _, ss2, path) :=
    checkAuth init_auth_hook (Some code) init_state ss1 now t (TokResp true (Some d)) in
  (h_isAuthenticated h = true <-> (t < now + expires_in d * 1000)%Z) /\
  h_loading h = false /\ h_error h = None /\
  pkce_verifier ss2 = None /\ auth_redirect ss2 = None /\
  path = Some (if String.eqb pathname "" then "/" else pathname).
Proof.
  intros Hc Hb Hcode Hd Htok Hnow Hei Ht.
  unfold login. destruct (String.eqb_spec clientId "") as [E|_]; [contradiction|].
  cbv beta iota zeta.
  unfold checkAuth, checkForCallback.
  apply String.eqb_neq in Hcode. rewrite Hcode.
  unfold handleCallback. cbn [pkce_verifier auth_redirect].
  destruct bytes as [|b bytes]; [contradiction|].
  rewrite (str_missing_false _ (generateRandomString_cons_nonempty b bytes)).
  cbn [auth_redirect pkce_verifier h_isAuthenticated h_loading h_error init_auth_hook].
  rewrite Hd. split; [apply fresh_token_window; auto|].
  repeat split.
Qed.

Lemma login_reload_callback_witness :
  let '(_, _, ss1) := login "client" [7; 8] "/map" init_state (mkSession None None) in
  let '(h, _, ss2, path) :=
    checkAuth init_auth_hook (Some "abc") init_state ss1 1000 2000
      (TokResp true (Some (mkTokenData (Some "tok") None 60))) in
  (h_isAuthenticated h = true <-> (2000 < 1000 + 60 * 1000)%Z) /\
  h_loading h = false /\ h_error h = None /\
  pkce_verifier ss2 = None /\ auth_redirect ss2 = None /\
  path = Some (if String.eqb "/map" "" then "/" else "/map").
Proof.
  exact (login_reload_callback "client" [7; 8] "/map" init_state (mkSession None None)
           "abc" 1000 2000 (mkTokenData (Some "tok") None 60) "tok"
           ltac:(discriminate) ltac:(discriminate) ltac:(discriminate) eq_refl
           ltac:(discriminate) ltac:(lia) ltac:(simpl; lia) ltac:(lia)).
Defined.

End AuthHookProofs.

(* ------------------------------------------------------------------------- *)
(** ** [useGeocoder] *)

Module GeocoderHookProofs.
Import Geocode GeocodeMore GeocoderHook GeocodeMoreProofs.

(** [search] never reports an error: a short text clears the results and
    leaves the error as it was; any other text clears the error and ends
    loading, and a failed lookup (rejected fetch, non-2xx status, error
    payload) shows as an empty result list.  [getSuggestions] leaves the
    results and the error alone. *)
Theorem geocoder_search_no_error (h : geo_hook) (text : string)
    (center : option (string * string)) (resp : geo_response) (sresp : sugg_response) :
  (String.length text < 3 ->
     results (search h text center resp) = [] /\
     g_error (search h text center resp) = g_error h) /\
  (3 <= String.length text ->
     g_error (search h text center resp) = None /\
     g_loading (search h text center resp) = false /\
     results (search h text center GNetErr) = [] /\
     (forall b, results (search h text center (GResp false b)) = []) /\
     (forall m, results (search h text center (GResp true (GError m))) = [])) /\
  results (fetchSuggestions h text center sresp) = results h /\
  g_error (fetchSuggestions h text center sresp) = g_error h.
Proof.
  split; [|split; [|unfold fetchSuggestions; destruct (_ || _); split; reflexivity]].
  - intros H. unfold search. apply Nat.ltb_lt in H. rewrite H, orb_true_r.
    split; reflexivity.
  - intros H. unfold search, geocodeAddress.
    rewrite (eqb_empty_long text 3) by lia.
    replace (Nat.ltb (String.length text) 3) with false by (symmetry; apply Nat.ltb_ge; lia).
    simpl. repeat split.
Qed.

End GeocoderHookProofs.
